(** * The storefront client's cart manager (public/script.js)

    A shallow embedding of [AppState] (the cart, its persistence in
    [localStorage], the view refresh and the notifications), of the
    quantity controls that [renderCartItems] wires to [updateQuantity], of
    the form submission path that drains the cart on checkout, and of
    [FormValidator] and the request that [ApiService.makeRequest] builds.

    JavaScript numbers are modelled by what the program stores in them:
    product identifiers and quantities hold integers (a [Z]) or the [NaN]
    that [parseInt] produces, and what is computed from them is rounded
    to 53 significant bits as binary64 arithmetic does; prices are
    binary64 numbers, kept as the kernel's [float] so that [getCartTotal]
    rounds exactly as the script does. Integers are taken up to
    [Number.MAX_VALUE]: the [Infinity] that the script has beyond it is
    not modelled. *)

From Stdlib Require Import ZArith String Ascii List Floats Permutation Lia.
From stdpp Require Import base option list gmap strings pretty.

Set Warnings "-inexact-float".

Local Open Scope Z_scope.

(** ** Values *)

(** Integer-valued numbers, and NaN. *)
Inductive number :=
| NaN
| Int (z : Z).

(** A field that may hold [null]: JSON has no NaN and no infinity, so
    [JSON.stringify] writes [null] for them and a later [JSON.parse] hands
    the [null] back. *)
Inductive nullable (A : Type) :=
| null
| val (a : A).
Arguments null {A}.
Arguments val {A} a.

(** ToNumber on a field: [null] counts as 0. *)
Definition ToNumber (v : nullable number) : number :=
  match v with
  | null => Int 0
  | val n => n
  end.

(** [m / 2^e] rounded to the nearest integer, to the even one of the two
    when it lies half way between them. *)
Definition round_half_even (m e : Z) : Z :=
  let q := m / 2 ^ e in
  let r := m mod 2 ^ e in
  let half := 2 ^ (e - 1) in
  if r <? half then q
  else if half <? r then q + 1
  else if Z.even q then q else q + 1.

(** The integer that a binary64 number holds in place of [z]: [z] itself
    up to 2^53, and from there on the nearest integer with 53 significant
    bits (round to nearest, ties to even). *)
Definition binary64 (z : Z) : Z :=
  let a := Z.abs z in
  if a <? 2 ^ 53 then z
  else
    let e := Z.log2 a - 52 in
    Z.sgn z * (round_half_even a e * 2 ^ e).
Arguments binary64 : simpl never.

(** [a + b] on numbers. *)
Definition num_add (a b : number) : number :=
  match a, b with
  | Int x, Int y => Int (binary64 (x + y))
  | _, _ => NaN
  end.

(** [a - b] on numbers. *)
Definition num_sub (a b : number) : number :=
  match a, b with
  | Int x, Int y => Int (binary64 (x - y))
  | _, _ => NaN
  end.

(** [a > b]: false as soon as one side is NaN. *)
Definition num_gt (a b : number) : bool :=
  match a, b with
  | Int x, Int y => y <? x
  | _, _ => false
  end.

(** [Math.max(a, b)]: NaN as soon as one argument is NaN. *)
Definition Math_max (a b : number) : number :=
  match a, b with
  | Int x, Int y => Int (Z.max x y)
  | _, _ => NaN
  end.

(** The binary64 number nearest to an integer (round to nearest, ties to
    even), which is how an integer quantity enters a product with a price. *)
Definition Z2F (z : Z) : float :=
  SF2Prim (binary_normalize prec emax z 0 false).

Definition number_to_float (n : number) : float :=
  match n with
  | NaN => nan
  | Int z => Z2F z
  end.

(** ToNumber on a price field. *)
Definition price_to_float (p : nullable float) : float :=
  match p with
  | null => 0%float
  | val x => x
  end.

(** ** Cart lines and products *)

(** What the click handler hands to [addToCart]: [{id, name, price}]. *)
Record Product := {
  pid : Z;
  pname : string;
  pprice : float
}.

(** One element of [AppState.cart]: [{id, name, price, quantity}]. *)
Record CartLine := {
  id : Z;
  name : string;
  price : nullable float;
  quantity : nullable number
}.

Definition set_quantity (item : CartLine) (q : nullable number) : CartLine :=
  {| id := id item; name := name item; price := price item; quantity := q |}.

(** [{ ...product, quantity: 1 }] *)
Definition new_line (product : Product) : CartLine :=
  {| id := pid product; name := pname product;
     price := val (pprice product); quantity := val (Int 1) |}.

(** ** JSON and localStorage *)

(** JSON documents, as far as the program looks into them: scalars, the
    array of line objects kept under the key [cart], and any other array
    or object (an order confirmation, say), which the program only passes
    on. *)
Inductive json :=
| JNull
| JBool (b : bool)
| JNumber (x : float)
| JString (s : string)
| JLines (lines : list CartLine)
| JOpaque (label : string).

(** A string held by localStorage, by what [JSON.parse] makes of it: a
    text that is not JSON, or the text of a document. *)
Inductive text :=
| NotJson (raw : string)
| Json (doc : json).

Inductive exn :=
| SyntaxError
| TypeError
| ApiError (message : string).

(** How a call ends: it returns or it throws. *)
Inductive outcome (A : Type) :=
| Ret (a : A)
| Throw (e : exn).
Arguments Ret {A} a.
Arguments Throw {A} e.

(** [JSON.stringify] of a number writes [null] for NaN and the infinities
    and [0] for the negative zero; [JSON.parse] reads the rest back as it
    was. *)
Definition stringify_price (p : nullable float) : nullable float :=
  match p with
  | null => null
  | val x =>
      match classify x with
      | FloatClass.NaN | PInf | NInf => null
      | PZero | NZero => val 0%float
      | _ => val x
      end
  end.

Definition stringify_quantity (q : nullable number) : nullable number :=
  match q with
  | val (Int z) => val (Int z)
  | _ => null
  end.

Definition stringify_line (item : CartLine) : CartLine :=
  {| id := id item; name := name item;
     price := stringify_price (price item);
     quantity := stringify_quantity (quantity item) |}.

(** [JSON.stringify(value)] of a value that is a document. *)
Definition JSON_stringify (j : json) : text :=
  Json match j with
       | JNumber x =>
           match classify x with
           | FloatClass.NaN | PInf | NInf => JNull
           | PZero | NZero => JNumber 0%float
           | _ => JNumber x
           end
       | JLines lines => JLines (map stringify_line lines)
       | _ => j
       end.

(** [JSON.parse(text)], where [None] is the [null] that [getItem] returns
    for a key that is not there: it is read as the text [null]. *)
Definition JSON_parse (t : option text) : outcome json :=
  match t with
  | None => Ret JNull
  | Some (NotJson _) => Throw SyntaxError
  | Some (Json doc) => Ret doc
  end.

(** Truthiness of a parsed document, for [JSON.parse(...) || []]. *)
Definition truthy (j : json) : bool :=
  match j with
  | JNull => false
  | JBool b => b
  | JNumber x =>
      match classify x with
      | FloatClass.NaN | PZero | NZero => false
      | _ => true
      end
  | JString s => negb (String.eqb s "")
  | JLines _ => true
  | JOpaque _ => true
  end.

(** ** The page *)

(** [.cart-count]: its text and whether it is displayed. *)
Record Badge := {
  badge_text : number;
  badge_shown : bool
}.

(** One [.cart-item] of the markup [renderCartItems] builds: the line it
    shows and the arguments its controls pass to [updateQuantity]. *)
Record Row := {
  row_id : Z;
  row_title : string;
  row_price : float;          (* shown with [toFixed(2)] *)
  row_minus : number;         (* [item.quantity - 1] *)
  row_input : nullable number;
  row_plus : number           (* [item.quantity + 1] *)
}.

(** [.cart-items]: the placeholder paragraph or the rows. *)
Inductive ItemsView :=
| EmptyCartMessage
| CartRows (rows : list Row).

(** The three elements [updateCartUI] looks for; [None] when the page has
    no such element. [cart_total] holds the number shown after the dollar
    sign with two decimals. *)
Record Dom := {
  cart_count : option Badge;
  cart_items : option ItemsView;
  cart_total : option float
}.

(** What leaves the cart manager, in the order it happens. *)
Inductive effect :=
| SetItem (key : string) (value : text)
| Notify (message : string) (kind : string)
| Request (endpoint : string) (order : option (list CartLine * float))
| Redirect (href : string).

(** ** State and its monad *)

Record State := {
  cart : list CartLine;
  user : option json;
  isLoggedIn : bool;
  localStorage : gmap string text;
  dom : Dom;
  effects : list effect
}.

(** A method body: it reads and writes the state, and returns or throws. *)
Definition M (A : Type) : Type := State → outcome A * State.

#[global] Instance M_ret : MRet M := λ A a st, (Ret a, st).

#[global] Instance M_bind : MBind M := λ A B f m st,
  match m st with
  | (Ret a, st') => f a st'
  | (Throw e, st') => (Throw e, st')
  end.

Definition throw {A} (e : exn) : M A := λ st, (Throw e, st).

Definition get : M State := λ st, (Ret st, st).

Definition modify (f : State → State) : M unit := λ st, (Ret tt, f st).

(** [try { body } catch (error) { handler(error) }] *)
Definition try_catch {A} (body : M A) (handler : exn → M A) : M A := λ st,
  match body st with
  | (Ret a, st') => (Ret a, st')
  | (Throw e, st') => handler e st'
  end.

(** The state a method leaves behind, whether it returned or threw. *)
Definition exec {A} (m : M A) (st : State) : State := snd (m st).

Definition set_cart (c : list CartLine) (st : State) : State :=
  {| cart := c; user := user st; isLoggedIn := isLoggedIn st;
     localStorage := localStorage st; dom := dom st; effects := effects st |}.

Definition set_session (u : option json) (b : bool) (st : State) : State :=
  {| cart := cart st; user := u; isLoggedIn := b;
     localStorage := localStorage st; dom := dom st; effects := effects st |}.

Definition set_dom (d : Dom) (st : State) : State :=
  {| cart := cart st; user := user st; isLoggedIn := isLoggedIn st;
     localStorage := localStorage st; dom := d; effects := effects st |}.

Definition emit (e : effect) (st : State) : State :=
  {| cart := cart st; user := user st; isLoggedIn := isLoggedIn st;
     localStorage := localStorage st; dom := dom st;
     effects := effects st ++ [e] |}.

(** [localStorage.setItem(key, value)] *)
Definition setItem (key : string) (value : text) : M unit :=
  modify (λ st,
    emit (SetItem key value)
      {| cart := cart st; user := user st; isLoggedIn := isLoggedIn st;
         localStorage := <[key := value]> (localStorage st);
         dom := dom st; effects := effects st |}).

(** ** AppState *)

(** [saveCart()] *)
Definition saveCart : M unit :=
  st ← get;
  setItem "cart" (JSON_stringify (JLines (cart st))).

(** [showNotification(message, type)]: the alert appended to the page. *)
Definition showNotification (message kind : string) : M unit :=
  modify (emit (Notify message kind)).

(** [item.price * item.quantity] *)
Definition line_amount (item : CartLine) : float :=
  (price_to_float (price item) * number_to_float (ToNumber (quantity item)))%float.

(** [getCartTotal()]: [reduce] from the left, starting at 0. *)
Definition getCartTotal : M float :=
  st ← get;
  mret (fold_left (λ total item, (total + line_amount item)%float) (cart st) 0%float).

(** The markup of one line; [item.price.toFixed(2)] throws on a [null]
    price. *)
Definition render_row (item : CartLine) : option Row :=
  match price item with
  | null => None
  | val x =>
      Some {| row_id := id item; row_title := name item; row_price := x;
              row_minus := num_sub (ToNumber (quantity item)) (Int 1);
              row_input := quantity item;
              row_plus := num_add (ToNumber (quantity item)) (Int 1) |}
  end.

Definition set_cart_items (v : ItemsView) (d : Dom) : Dom :=
  {| cart_count := cart_count d; cart_items := Some v; cart_total := cart_total d |}.

Definition set_cart_count (b : Badge) (d : Dom) : Dom :=
  {| cart_count := Some b; cart_items := cart_items d; cart_total := cart_total d |}.

Definition set_cart_total (x : float) (d : Dom) : Dom :=
  {| cart_count := cart_count d; cart_items := cart_items d; cart_total := Some x |}.

(** [renderCartItems()] *)
Definition renderCartItems : M unit :=
  st ← get;
  match cart_items (dom st) with
  | None => mret tt
  | Some _ =>
      match cart st with
      | [] => modify (λ st, set_dom (set_cart_items EmptyCartMessage (dom st)) st)
      | _ =>
          match mapM render_row (cart st) with
          | None => throw TypeError
          | Some rows => modify (λ st, set_dom (set_cart_items (CartRows rows) (dom st)) st)
          end
      end
  end.

(** [updateCartUI()] *)
Definition updateCartUI : M unit :=
  st ← get;
  match cart_count (dom st) with
  | None => mret tt
  | Some _ =>
      let totalItems :=
        fold_left (λ sum item, num_add sum (ToNumber (quantity item))) (cart st) (Int 0) in
      modify (λ st,
        set_dom (set_cart_count {| badge_text := totalItems;
                                   badge_shown := num_gt totalItems (Int 0) |} (dom st)) st)
  end;;
  match cart_items (dom st) with
  | None => mret tt
  | Some _ => renderCartItems
  end;;
  match cart_total (dom st) with
  | None => mret tt
  | Some _ =>
      total ← getCartTotal;
      modify (λ st, set_dom (set_cart_total total (dom st)) st)
  end.

(** [this.cart.find(item => item.id === wanted)], with the position of the
    object it returns: the methods update that object in place. *)
Definition find_line (wanted : Z) (c : list CartLine) : option (nat * CartLine) :=
  list_find (λ item, id item = wanted) c.

(** [addToCart(product)] *)
Definition addToCart (product : Product) : M unit :=
  st ← get;
  match find_line (pid product) (cart st) with
  | Some (i, existingItem) =>
      modify (set_cart
        (<[i := set_quantity existingItem
                  (val (num_add (ToNumber (quantity existingItem)) (Int 1)))]> (cart st)))
  | None =>
      modify (set_cart (cart st ++ [new_line product]))
  end;;
  saveCart;;
  updateCartUI;;
  showNotification "Product added to cart!" "success".

(** [removeFromCart(productId)] *)
Definition removeFromCart (productId : Z) : M unit :=
  modify (λ st, set_cart (filter (λ item, id item ≠ productId) (cart st)) st);;
  saveCart;;
  updateCartUI;;
  showNotification "Product removed from cart!" "success".

(** [updateQuantity(productId, quantity)] *)
Definition updateQuantity (productId : Z) (quantity : number) : M unit :=
  st ← get;
  match find_line productId (cart st) with
  | Some (i, item) =>
      modify (set_cart
        (<[i := set_quantity item (val (Math_max (Int 1) quantity))]> (cart st)));;
      saveCart;;
      updateCartUI
  | None => mret tt
  end.

(** ** The quantity controls *)

(** The ASCII white space: the blank, and the tab to the carriage
    return. *)
Definition is_space (c : ascii) : bool :=
  let n := Z.of_nat (nat_of_ascii c) in
  (n =? 32) || ((9 <=? n) && (n <=? 13)).

(** White space among the characters below 256, which [parseInt] skips
    and [\s] matches: the ASCII white space and the no-break space. *)
Definition is_white (c : ascii) : bool :=
  is_space c || (Z.of_nat (nat_of_ascii c) =? 160).

Fixpoint trim_start (s : string) : string :=
  match s with
  | String c rest => if is_white c then trim_start rest else s
  | EmptyString => s
  end.

(** The value of a digit in the given radix (10 or 16). *)
Definition digit_value (radix : Z) (c : ascii) : option Z :=
  let n := Z.of_nat (nat_of_ascii c) in
  let d :=
    if (48 <=? n) && (n <=? 57) then Some (n - 48)
    else if (97 <=? n) && (n <=? 122) then Some (n - 87)
    else if (65 <=? n) && (n <=? 90) then Some (n - 55)
    else None in
  match d with
  | Some v => if v <? radix then Some v else None
  | None => None
  end.

(** The longest run of digits at the front of [s]; [acc] is [None] until a
    digit has been read. *)
Fixpoint leading_digits (radix : Z) (s : string) (acc : option Z) : option Z :=
  match s with
  | String c rest =>
      match digit_value radix c with
      | Some d => leading_digits radix rest (Some (radix * default 0 acc + d))
      | None => acc
      end
  | EmptyString => acc
  end.

(** [parseInt(string)] without a radix argument: the digits are read as
    an integer, which the result holds as a binary64 number does. *)
Definition parseInt (s : string) : number :=
  let s1 := trim_start s in
  let '(sign, s2) :=
    match s1 with
    | String "-" rest => (-1, rest)
    | String "+" rest => (1, rest)
    | _ => (1, s1)
    end in
  let '(radix, s3) :=
    match s2 with
    | String "0" (String "x" rest) => (16, rest)
    | String "0" (String "X" rest) => (16, rest)
    | _ => (10, s2)
    end in
  match leading_digits radix s3 None with
  | None => NaN
  | Some n => Int (binary64 (sign * n))
  end.

(** What the controls of a rendered row do when used. The arguments of the
    two buttons were written into the markup when the row was rendered;
    the text field passes what it holds at the time of the event. *)
Inductive control :=
| MinusButton
| QuantityInput (value : string)
| PlusButton
| RemoveButton.

Definition use_control (r : Row) (c : control) : M unit :=
  match c with
  | MinusButton => updateQuantity (row_id r) (row_minus r)
  | QuantityInput value => updateQuantity (row_id r) (parseInt value)
  | PlusButton => updateQuantity (row_id r) (row_plus r)
  | RemoveButton => removeFromCart (row_id r)
  end.

(** ** Start-up *)

(** [JSON.parse(localStorage.getItem('cart')) || []] *)
Definition hydrate (storage : gmap string text) : outcome json :=
  match JSON_parse (storage !! "cart") with
  | Ret j => Ret (if truthy j then j else JLines [])
  | Throw e => Throw e
  end.

(** How loading the script ends: with an [AppState], with the exception
    that [JSON.parse] threw, or with a [cart] that is not an array of
    lines, about which this development says nothing. *)
Inductive startup :=
| Started (st : State)
| Crashed (e : exn)
| Foreign (v : json).

(** The object literal [const AppState = { user: null, cart: ..., isLoggedIn: false, ... }] *)
Definition AppState_init (storage : gmap string text) (page : Dom) : startup :=
  match hydrate storage with
  | Throw e => Crashed e
  | Ret (JLines lines) =>
      Started {| cart := lines; user := None; isLoggedIn := false;
                 localStorage := storage; dom := page; effects := [] |}
  | Ret v => Foreign v
  end.

(** Loading a page: the script runs, then the [DOMContentLoaded] handler
    refreshes the cart view. *)
Definition page_load (storage : gmap string text) (page : Dom) : startup :=
  match AppState_init storage page with
  | Started st => Started (exec updateCartUI st)
  | other => other
  end.

(** ** Forms *)

(** What [ApiService.makeRequest] comes back with: the decoded body, or a
    failure (no network, or a status that is not ok) with its message. *)
Inductive api_reply (A : Type) :=
| Ok (data : A)
| Failed (message : string).
Arguments Ok {A} data.
Arguments Failed {A} message.

Record LoginResult := {
  token : text;
  login_user : json
}.

(** A submitted form, by its [data-type], with the answer its request
    will get. *)
Inductive submission :=
| Login (r : api_reply LoginResult)
| Register (r : api_reply json)
| ResetPassword (r : api_reply json)
| Checkout (r : api_reply json)
| Profile (r : api_reply json)
| OtherForm.

(** [ApiService.makeRequest(endpoint, options)] *)
Definition makeRequest {A} (endpoint : string) (order : option (list CartLine * float))
    (r : api_reply A) : M A :=
  modify (emit (Request endpoint order));;
  match r with
  | Ok data => mret data
  | Failed message => throw (ApiError message)
  end.

(** [handleFormSubmission(formType, formData)] *)
Definition handleFormSubmission (form : submission) : M unit :=
  match form with
  | Login r =>
      loginResult ← makeRequest "/auth/login" None r;
      setItem "authToken" (token loginResult);;
      modify (set_session (Some (login_user loginResult)) true);;
      modify (emit (Redirect "home.html"))
  | Register r =>
      _ ← makeRequest "/auth/register" None r;
      modify (emit (Redirect "login.html"))
  | ResetPassword r =>
      _ ← makeRequest "/auth/reset-password" None r;
      mret tt
  | Checkout r =>
      st ← get;
      total ← getCartTotal;
      orderResult ← makeRequest "/orders" (Some (cart st, total)) r;
      setItem "lastOrder" (JSON_stringify orderResult);;
      modify (set_cart []);;
      saveCart;;
      modify (emit (Redirect "order_successful.html"))
  | Profile r =>
      _ ← makeRequest "/user/profile" None r;
      mret tt
  | OtherForm => mret tt
  end.

(** [error.message] *)
Definition error_message (e : exn) : string :=
  match e with
  | SyntaxError => "SyntaxError"
  | TypeError => "TypeError"
  | ApiError message => message
  end.

(** The [submit] listener; [valid] is what [FormValidator.validateForm]
    answered. The loading state it puts on the button and takes off again
    lives in the button alone. *)
Definition submit (valid : bool) (form : submission) : M unit :=
  if valid then
    try_catch
      (handleFormSubmission form;;
       showNotification "Form submitted successfully!" "success")
      (λ error, showNotification (error_message error) "error")
  else
    showNotification "Please fix the errors in the form" "error".

(** A sequence of calls, each made by its own event: a call that throws
    ends there, and the next one starts from the state it left. *)
Definition after_calls {A} (calls : list (M A)) (st : State) : State :=
  foldl (λ s call, exec call s) st calls.

(** ** The data model's lines *)

(** A price that is a non-negative amount: zero, or positive and finite. *)
Definition is_amount (x : float) : bool :=
  match classify x with
  | PZero | NZero | PSubn | PNormal => true
  | _ => false
  end.

(** A line as the data model wants it: a quantity that is an integer, at
    least 1, and a price that is a non-negative amount. The id is an
    integer by its type. *)
Definition well_formed (item : CartLine) : bool :=
  match quantity item, price item with
  | val (Int q), val x => (1 <=? q) && is_amount x
  | _, _ => false
  end.

(** [a === b] on prices. *)
Definition strict_equal_price (a b : nullable float) : bool :=
  match a, b with
  | null, null => true
  | val x, val y => PrimFloat.eqb x y
  | _, _ => false
  end.

(** Two lines with the same id, name and quantity, and prices that [===]
    takes for equal. *)
Definition same_line (a b : CartLine) : Prop :=
  id a = id b ∧ name a = name b ∧ quantity a = quantity b
  ∧ strict_equal_price (price a) (price b) = true.

(** ** The life of a cart *)

(** What can happen to the state: a call of one of the three cart methods
    (with any product, id or number), a form submission, or a new page
    load that hydrates from the store as the state left it. *)
Inductive step : State → State → Prop :=
| step_addToCart st product :
    step st (exec (addToCart product) st)
| step_removeFromCart st productId :
    step st (exec (removeFromCart productId) st)
| step_updateQuantity st productId q :
    step st (exec (updateQuantity productId q) st)
| step_submit st valid form :
    step st (exec (submit valid form) st)
| step_page_load st page st' :
    page_load (localStorage st) page = Started st' →
    step st st'.

(** The states a visitor can bring about, starting from a page load with
    nothing stored under the key [cart]. *)
Inductive reachable : State → Prop :=
| reachable_first storage page st :
    storage !! "cart" = None →
    page_load storage page = Started st →
    reachable st
| reachable_step st st' :
    reachable st → step st st' → reachable st'.

(** ** Sample data *)

(** Four of [mockProducts]. *)
Definition headphones : Product :=
  {| pid := 1; pname := "Wireless Headphones"; pprice := 99.99%float |}.

Definition smart_watch : Product :=
  {| pid := 2; pname := "Smart Watch"; pprice := 299.99%float |}.

Definition usb_hub : Product :=
  {| pid := 4; pname := "USB-C Hub"; pprice := 79.99%float |}.

Definition mouse : Product :=
  {| pid := 5; pname := "Wireless Mouse"; pprice := 39.99%float |}.

(** A page that has the three cart elements, as the cart page does. *)
Definition cart_page : Dom :=
  {| cart_count := Some {| badge_text := Int 0; badge_shown := false |};
     cart_items := Some EmptyCartMessage;
     cart_total := Some 0%float |}.

(** A first visit: nothing stored, nothing in the cart. *)
Definition first_visit : State :=
  {| cart := []; user := None; isLoggedIn := false;
     localStorage := ∅; dom := cart_page; effects := [] |}.

(** The cart page after one click on the headphones. *)
Definition one_headphones : State := exec (addToCart headphones) first_visit.

(** The row of the headphones on that page. *)
Definition headphones_row : Row :=
  {| row_id := 1; row_title := "Wireless Headphones"; row_price := 99.99%float;
     row_minus := Int 0; row_input := val (Int 1); row_plus := Int 2 |}.

(** The cart page after the headphones and the watch were added. *)
Definition two_lines : State :=
  after_calls [addToCart headphones; addToCart smart_watch] first_visit.

(** Three products added in one order, and in the opposite order. *)
Definition three_lines : State :=
  after_calls [addToCart headphones; addToCart usb_hub; addToCart mouse] first_visit.

Definition three_lines_reversed : State :=
  after_calls [addToCart mouse; addToCart usb_hub; addToCart headphones] first_visit.

(** One pair of headphones, two hubs and three mice, added in that order,
    and the same cart filled in the opposite order. *)
Definition six_units : State :=
  after_calls
    (addToCart <$> [headphones; usb_hub; usb_hub; mouse; mouse; mouse]) first_visit.

Definition six_units_reversed : State :=
  after_calls
    (addToCart <$> [mouse; mouse; mouse; usb_hub; usb_hub; headphones]) first_visit.

(** Three pairs of headphones. *)
Definition three_headphones : State :=
  after_calls (addToCart <$> [headphones; headphones; headphones]) first_visit.

(** The state a new page load starts with, when the script starts. *)
Definition reloaded (st : State) (page : Dom) : State :=
  match AppState_init (localStorage st) page with
  | Started st' => st'
  | _ => st
  end.

(** A product card whose price text [parseFloat] could not read. *)
Definition unpriced : Product :=
  {| pid := 9; pname := "Gift Card"; pprice := nan |}.

(** The cart page loaded again after that product was added. *)
Definition unpriced_visit : State :=
  reloaded (exec (addToCart unpriced) first_visit) cart_page.

(** ** The total as the specification writes it *)

(** The sum over the first [n] lines, in cart order, of unit price times
    quantity, both read as numbers ([null] as 0) and multiplied and added
    in binary64. *)
Fixpoint sum_of_amounts (c : list CartLine) (n : nat) : float :=
  match n with
  | O => 0%float
  | S k =>
      (sum_of_amounts c k
       + match c !! k with
         | Some item =>
             price_to_float (price item) * number_to_float (ToNumber (quantity item))
         | None => 0
         end)%float
  end.

(** ** Predicates on methods and states *)

(** Methods that write to the page and to nothing else. *)
Definition dom_only {A} (m : M A) : Prop :=
  ∀ st, ∃ r d, m st = (r, set_dom d st).

(** Methods that, on the cart [c], return and write to the page only. *)
Definition completes {A} (c : list CartLine) (m : M A) : Prop :=
  ∀ st, cart st = c → ∃ a d, m st = (Ret a, set_dom d st).

(** The ids of the cart are pairwise different, and so are the ids of the
    lines stored under the key [cart], if any. *)
Definition ids_unique (st : State) : Prop :=
  NoDup (id <$> cart st)
  ∧ ∀ t, localStorage st !! "cart" = Some t →
      ∃ c0, t = Json (JLines c0) ∧ NoDup (id <$> c0).

(** A quantity as the data model wants it: an integer, at least 1. *)
Definition positive_quantity (item : CartLine) : Prop :=
  ∃ q, quantity item = val (Int q) ∧ 1 ≤ q.

(** The store holds the cart: nothing under the key [cart] while the cart
    is empty, or the text [saveCart] writes for the cart. *)
Definition store_mirrors_cart (st : State) : Prop :=
  (localStorage st !! "cart" = None ∧ cart st = [])
  ∨ localStorage st !! "cart" = Some (JSON_stringify (JLines (cart st))).

(** The page shows the cart [c]: each of the three elements the page has
    holds what [updateCartUI] computes from [c]. *)
Definition page_shows (d : Dom) (c : list CartLine) : Prop :=
  let totalItems :=
    fold_left (λ sum item, num_add sum (ToNumber (quantity item))) c (Int 0) in
  (∀ b, cart_count d = Some b →
     b = {| badge_text := totalItems; badge_shown := num_gt totalItems (Int 0) |})
  ∧ (∀ v, cart_items d = Some v →
       match c with
       | [] => v = EmptyCartMessage
       | _ => ∃ rows, mapM render_row c = Some rows ∧ v = CartRows rows
       end)
  ∧ (∀ t, cart_total d = Some t →
       t = fold_left (λ total item, (total + line_amount item)%float) c 0%float).

(** The notifications among the effects, in order. *)
Definition notifications (es : list effect) : list (string * string) :=
  omap (λ e, match e with Notify message kind => Some (message, kind) | _ => None end) es.

(** The message of the failure a submitted form will meet, if its request
    fails. *)
Definition failure_of (form : submission) : option string :=
  match form with
  | Login (Failed message) | Register (Failed message) | ResetPassword (Failed message)
  | Checkout (Failed message) | Profile (Failed message) => Some message
  | _ => None
  end.

(** ** Regular expressions *)

(** The patterns of [FormValidator.rules], as far as they go: character
    classes, sequence, alternative, repetition, and the conjunction that a
    lookahead amounts to. Strings are taken as ASCII text, one [ascii] per
    character. *)
Inductive regex :=
| Never
| Eps
| Chars (p : ascii → bool)
| Seq (r1 r2 : regex)
| Alt (r1 r2 : regex)
| Star (r : regex)
| Both (r1 r2 : regex).

(** Whether the pattern matches the empty string. *)
Fixpoint matches_empty (r : regex) : bool :=
  match r with
  | Never => false
  | Eps => true
  | Chars _ => false
  | Seq r1 r2 => matches_empty r1 && matches_empty r2
  | Alt r1 r2 => matches_empty r1 || matches_empty r2
  | Star _ => true
  | Both r1 r2 => matches_empty r1 && matches_empty r2
  end.

(** What is left to match after the character [c]. *)
Fixpoint deriv (c : ascii) (r : regex) : regex :=
  match r with
  | Never => Never
  | Eps => Never
  | Chars p => if p c then Eps else Never
  | Seq r1 r2 =>
      if matches_empty r1 then Alt (Seq (deriv c r1) r2) (deriv c r2)
      else Seq (deriv c r1) r2
  | Alt r1 r2 => Alt (deriv c r1) (deriv c r2)
  | Star r1 => Seq (deriv c r1) (Star r1)
  | Both r1 r2 => Both (deriv c r1) (deriv c r2)
  end.

Fixpoint accepts (r : regex) (s : list ascii) : bool :=
  match s with
  | [] => matches_empty r
  | c :: rest => accepts (deriv c r) rest
  end.

(** [/^r$/.test(value)]: the pattern has to match the whole string. *)
Definition RegExp_test (r : regex) (value : string) : bool :=
  accepts r (list_ascii_of_string value).

(** [r{n,}] *)
Fixpoint at_least (n : nat) (r : regex) : regex :=
  match n with
  | O => Star r
  | S k => Seq r (at_least k r)
  end.

(** [r?] *)
Definition optional (r : regex) : regex := Alt r Eps.

(** [(?=r)rest] in a pattern that ends with [$]: [r] has to match a
    prefix of what [rest] matches to the end. *)
Definition lookahead (r rest : regex) : regex :=
  Both (Seq r (Star (Chars (λ _, true)))) rest.

(** The strings a pattern matches. *)
Inductive lang : regex → list ascii → Prop :=
| lang_eps : lang Eps []
| lang_chars p c : p c = true → lang (Chars p) [c]
| lang_seq r1 r2 s1 s2 : lang r1 s1 → lang r2 s2 → lang (Seq r1 r2) (s1 ++ s2)
| lang_alt_l r1 r2 s : lang r1 s → lang (Alt r1 r2) s
| lang_alt_r r1 r2 s : lang r2 s → lang (Alt r1 r2) s
| lang_star_nil r : lang (Star r) []
| lang_star_app r s1 s2 : lang r s1 → lang (Star r) s2 → lang (Star r) (s1 ++ s2)
| lang_both r1 r2 s : lang r1 s → lang r2 s → lang (Both r1 r2) s.

(** ** FormValidator *)

(** [\d], [[a-z]], [[A-Z]] *)
Definition is_digit (c : ascii) : bool :=
  let n := Z.of_nat (nat_of_ascii c) in (48 <=? n) && (n <=? 57).

Definition is_lower (c : ascii) : bool :=
  let n := Z.of_nat (nat_of_ascii c) in (97 <=? n) && (n <=? 122).

Definition is_upper (c : ascii) : bool :=
  let n := Z.of_nat (nat_of_ascii c) in (65 <=? n) && (n <=? 90).

(** [.]: any character but a line end. *)
Definition is_dot (c : ascii) : bool :=
  let n := Z.of_nat (nat_of_ascii c) in negb ((n =? 10) || (n =? 13)).

(** [[^\s@]] *)
Definition is_address_char (c : ascii) : bool :=
  negb (is_white c || Ascii.eqb c "@").

(** [[a-zA-Z\d@$!%*?&]] *)
Definition is_password_char (c : ascii) : bool :=
  is_lower c || is_upper c || is_digit c
  || Ascii.eqb c "@" || Ascii.eqb c "$" || Ascii.eqb c "!" || Ascii.eqb c "%"
  || Ascii.eqb c "*" || Ascii.eqb c "?" || Ascii.eqb c "&".

(** [[a-zA-Z\s]] *)
Definition is_name_char (c : ascii) : bool :=
  is_lower c || is_upper c || is_white c.

(** [[\d\s-()]]: a digit, white space, a hyphen or a parenthesis. *)
Definition is_phone_char (c : ascii) : bool :=
  is_digit c || is_white c || Ascii.eqb c "-" || Ascii.eqb c "(" || Ascii.eqb c ")".

(** [/^[^\s@]+@[^\s@]+\.[^\s@]+$/] *)
Definition rules_email : regex :=
  Seq (at_least 1 (Chars is_address_char))
    (Seq (Chars (Ascii.eqb "@"))
       (Seq (at_least 1 (Chars is_address_char))
          (Seq (Chars (Ascii.eqb "."))
             (at_least 1 (Chars is_address_char))))).

(** [/^(?=.*[a-z])(?=.*[A-Z])(?=.*\d)[a-zA-Z\d@$!%*?&]{8,}$/] *)
Definition rules_password : regex :=
  lookahead (Seq (Star (Chars is_dot)) (Chars is_lower))
    (lookahead (Seq (Star (Chars is_dot)) (Chars is_upper))
       (lookahead (Seq (Star (Chars is_dot)) (Chars is_digit))
          (at_least 8 (Chars is_password_char)))).

(** [/^[a-zA-Z\s]{2,}$/] *)
Definition rules_name : regex := at_least 2 (Chars is_name_char).

(** [/^\+?[\d\s-()]{10,}$/] *)
Definition rules_phone : regex :=
  Seq (optional (Chars (Ascii.eqb "+"))) (at_least 10 (Chars is_phone_char)).

(** [validate(field, value)]; [password] is the value of the first input
    named [password] in the document, if there is one. *)
Definition validate (password : option string) (field value : string) : list string :=
  if String.eqb field "email" then
    if String.eqb value "" then ["Email is required"]
    else if negb (RegExp_test rules_email value) then ["Invalid email format"]
    else []
  else if String.eqb field "password" then
    if String.eqb value "" then ["Password is required"]
    else if (String.length value <? 8)%nat then ["Password must be at least 8 characters"]
    else if negb (RegExp_test rules_password value)
      then ["Password must contain uppercase, lowercase, and number"]
    else []
  else if String.eqb field "confirmPassword" then
    if String.eqb value "" then ["Please confirm password"]
    else if negb (bool_decide (Some value = password)) then ["Passwords do not match"]
    else []
  else if String.eqb field "name" then
    if String.eqb value "" then ["Name is required"]
    else if negb (RegExp_test rules_name value) then ["Invalid name format"]
    else []
  else if String.eqb field "phone" then
    if negb (String.eqb value "") && negb (RegExp_test rules_phone value)
      then ["Invalid phone format"]
    else []
  else [].

(** The shape of an address: a local part, [@], and a domain with a dot
    inside, all three parts non-empty and free of white space and of
    [@]. *)
Definition address_shape (s : list ascii) : Prop :=
  ∃ l a b,
    s = l ++ "@"%char :: a ++ "."%char :: b
    ∧ l ≠ [] ∧ a ≠ [] ∧ b ≠ []
    ∧ Forall (λ c, is_address_char c = true) (l ++ a ++ b).

(** A [.form-error] element: its text and whether it is displayed. *)
Record ErrorElement := {
  error_text : string;
  error_shown : bool
}.

(** An [input] of a form: its name and value, whether it carries
    [required] or [data-validate], whether it has the class [error], and
    which of the form's [.form-error] elements
    [input.parentNode.querySelector('.form-error')] finds, if any. Inputs
    under one parent find the same element. *)
Record Input := {
  input_name : string;
  input_value : string;
  input_validated : bool;
  input_error_class : bool;
  input_error_element : option nat
}.

(** A form: its inputs in document order, and its [.form-error] elements
    by number. *)
Record Form := {
  form_inputs : list Input;
  form_errors : gmap nat ErrorElement
}.

(** [validateForm(formElement)]: its answer, and the form as it leaves
    it. *)
Definition validateForm (password : option string) (form : Form) : bool * Form :=
  let '(isValid, inputs, errors) :=
    foldl (λ '(isValid, done, errors) input,
      if input_validated input then
        match validate password (input_name input) (input_value input) with
        | first :: _ =>
            (false,
             done ++ [{| input_name := input_name input; input_value := input_value input;
                         input_validated := input_validated input;
                         input_error_class := true;
                         input_error_element := input_error_element input |}],
             match input_error_element input with
             | Some errorElement =>
                 alter (λ _, {| error_text := first; error_shown := true |})
                   errorElement errors
             | None => errors
             end)
        | [] =>
            (isValid,
             done ++ [{| input_name := input_name input; input_value := input_value input;
                         input_validated := input_validated input;
                         input_error_class := false;
                         input_error_element := input_error_element input |}],
             match input_error_element input with
             | Some errorElement =>
                 alter (λ e, {| error_text := error_text e; error_shown := false |})
                   errorElement errors
             | None => errors
             end)
        end
      else (isValid, done ++ [input], errors))
      (true, [], form_errors form) (form_inputs form) in
  (isValid, {| form_inputs := inputs; form_errors := errors |}).

(** The [blur] listener that [setupRealTimeValidation] puts on every input
    of a form, run for the input at position [i]. *)
Definition on_blur (password : option string) (i : nat) (form : Form) : Form :=
  match form_inputs form !! i with
  | None => form
  | Some input =>
      match validate password (input_name input) (input_value input) with
      | first :: _ =>
          {| form_inputs :=
               <[i := {| input_name := input_name input; input_value := input_value input;
                         input_validated := input_validated input;
                         input_error_class := true;
                         input_error_element := input_error_element input |}]>
                 (form_inputs form);
             form_errors :=
               match input_error_element input with
               | Some errorElement =>
                   alter (λ _, {| error_text := first; error_shown := true |})
                     errorElement (form_errors form)
               | None => form_errors form
               end |}
      | [] =>
          {| form_inputs :=
               <[i := {| input_name := input_name input; input_value := input_value input;
                         input_validated := input_validated input;
                         input_error_class := false;
                         input_error_element := input_error_element input |}]>
                 (form_inputs form);
             form_errors :=
               match input_error_element input with
               | Some errorElement =>
                   alter (λ e, {| error_text := error_text e; error_shown := false |})
                     errorElement (form_errors form)
               | None => form_errors form
               end |}
      end
  end.

(** The positions, from [start] on, of the inputs that carry [required]
    or [data-validate]. *)
Fixpoint validated_positions (inputs : list Input) (start : nat) : list nat :=
  match inputs with
  | [] => []
  | input :: rest =>
      if input_validated input then start :: validated_positions rest (S start)
      else validated_positions rest (S start)
  end.

(** What a button holds: its own markup, or the spinner with a text. *)
Inductive ButtonContent :=
| Markup (html : string)
| Spinner (label : string).

Record Button := {
  disabled : bool;
  innerHTML : ButtonContent
}.

(** [LoadingManager.show(element, text)] *)
Definition LoadingManager_show (element : Button) (label : string) : Button :=
  {| disabled := true; innerHTML := Spinner label |}.

(** [LoadingManager.hide(element, originalText)] *)
Definition LoadingManager_hide (element : Button) (originalText : ButtonContent) : Button :=
  {| disabled := false; innerHTML := originalText |}.

(** A form on the page, with its submit button. *)
Record FormPage := {
  page_form : Form;
  submit_button : Button
}.

(** The [submit] listener with the form it belongs to: it validates, and
    around the submission it puts the button into its loading state and
    takes it out again. It returns the form as it leaves it. *)
Definition submit_listener (password : option string) (form : submission)
    (page : FormPage) : M FormPage :=
  let '(isValid, validated) := validateForm password (page_form page) in
  if isValid then
    let originalText := innerHTML (submit_button page) in
    let loading := LoadingManager_show (submit_button page) "Loading..." in
    submit true form;;
    mret {| page_form := validated;
            submit_button := LoadingManager_hide loading originalText |}
  else
    submit false form;;
    mret {| page_form := validated; submit_button := submit_button page |}.

(** ** The request that makeRequest builds *)

(** A header value: a fixed string, or [Bearer] followed by the stored
    token. *)
Inductive header_value :=
| Literal (s : string)
| Bearer (token : text).

(** The [options] a caller passes to [makeRequest]. *)
Record RequestOptions := {
  opt_method : option string;
  opt_body : option json;
  opt_headers : option (gmap string header_value)
}.

(** The [config] handed to [fetch]. *)
Record RequestConfig := {
  config_headers : gmap string header_value;
  config_method : option string;
  config_body : option json
}.

(** Truthiness of a stored string: only the empty string is falsy. *)
Definition text_truthy (t : text) : bool :=
  match t with
  | NotJson raw => negb (String.eqb raw "")
  | Json _ => true
  end.

(** The first half of [makeRequest]: the merged headers, over which
    [...options] puts the caller's [headers] back when it has any, and
    the token of the store. *)
Definition request_config (storage : gmap string text) (options : RequestOptions)
    : RequestConfig :=
  let headers :=
    match opt_headers options with
    | Some given => given
    | None => {["Content-Type" := Literal "application/json"]}
    end in
  {| config_headers :=
       match storage !! "authToken" with
       | Some token =>
           if text_truthy token then <["Authorization" := Bearer token]> headers
           else headers
       | None => headers
       end;
     config_method := opt_method options;
     config_body := opt_body options |}.

(** ** What the quantity field shows *)





(** * Properties *)

(** ** How the methods run *)

Lemma set_dom_same (st : State) : set_dom (dom st) st = st.
Proof. by destruct st. Qed.

Lemma dom_only_ret {A} (a : A) : dom_only (mret a).
Proof. intros st. exists (Ret a), (dom st). by rewrite set_dom_same. Qed.

Lemma dom_only_throw {A} (e : exn) : dom_only (throw (A:=A) e).
Proof. intros st. exists (Throw e), (dom st). by rewrite set_dom_same. Qed.

Lemma dom_only_bind {A B} (m : M A) (k : A → M B) :
  dom_only m → (∀ a, dom_only (k a)) → dom_only (m ≫= k).
Proof.
  intros Hm Hk st. unfold mbind, M_bind.
  destruct (Hm st) as (r & d & ->). destruct r as [a|e].
  - destruct (Hk a (set_dom d st)) as (r' & d' & ->). by exists r', d'.
  - by exists (Throw e), d.
Qed.

Lemma dom_only_get {A} (k : State → M A) :
  (∀ st, dom_only (k st)) → dom_only (get ≫= k).
Proof. intros Hk st. apply (Hk st st). Qed.

Lemma dom_only_modify (f : Dom → Dom) :
  dom_only (modify (λ st, set_dom (f (dom st)) st)).
Proof. intros st. by exists (Ret tt), (f (dom st)). Qed.

Lemma getCartTotal_run (st : State) :
  getCartTotal st =
  (Ret (fold_left (λ total item, (total + line_amount item)%float) (cart st) 0%float), st).
Proof. reflexivity. Qed.

Create HintDb frame.
#[local] Hint Resolve dom_only_ret dom_only_throw : frame.
#[local] Hint Extern 1 (dom_only (modify _)) =>
  first [ apply (dom_only_modify (set_cart_count _))
        | apply (dom_only_modify (set_cart_items _))
        | apply (dom_only_modify (set_cart_total _)) ] : frame.

Lemma renderCartItems_dom_only : dom_only renderCartItems.
Proof.
  apply dom_only_get. intros st.
  destruct (cart_items (dom st)); [|auto with frame].
  destruct (cart st); [auto with frame|].
  destruct (mapM _ _) as [rows|]; auto with frame.
Qed.

(** The view refresh writes to the page and to nothing else. *)
Lemma updateCartUI_dom_only : dom_only updateCartUI.
Proof.
  apply dom_only_get. intros st.
  apply dom_only_bind.
  { destruct (cart_count (dom st)); [|apply dom_only_ret].
    apply (dom_only_modify (set_cart_count _)). }
  intros _. apply dom_only_bind.
  { destruct (cart_items (dom st)); [apply renderCartItems_dom_only|apply dom_only_ret]. }
  intros _. destruct (cart_total (dom st)); [|apply dom_only_ret].
  apply dom_only_bind.
  { intros st'. rewrite getCartTotal_run. exists (Ret (fold_left (λ total item, (total + line_amount item)%float) (cart st') 0%float)), (dom st').
    by rewrite set_dom_same. }
  intros total. apply (dom_only_modify (set_cart_total total)).
Qed.

(** Write the result of the view refresh in the goal as an outcome and a
    page. *)
Ltac refresh_frame r d :=
  match goal with
  | |- context [updateCartUI ?s] =>
      destruct (updateCartUI_dom_only s) as (r & d & ->)
  end.

Lemma dom_only_cart {A} (m : M A) (st : State) :
  dom_only m → cart (snd (m st)) = cart st.
Proof. intros Hm. by destruct (Hm st) as (r & d & ->). Qed.

Lemma dom_only_localStorage {A} (m : M A) (st : State) :
  dom_only m → localStorage (snd (m st)) = localStorage st.
Proof. intros Hm. by destruct (Hm st) as (r & d & ->). Qed.

Lemma dom_only_effects {A} (m : M A) (st : State) :
  dom_only m → effects (snd (m st)) = effects st.
Proof. intros Hm. by destruct (Hm st) as (r & d & ->). Qed.

(** What [saveCart(); updateCartUI(); showNotification(...)] leaves: the
    cart as it was, its text under the key [cart], and the notification
    unless the refresh threw. *)
Lemma save_refresh_notify (message kind : string) (st : State) :
  let res := (saveCart;; updateCartUI;; showNotification message kind) st in
  cart (snd res) = cart st
  ∧ localStorage (snd res)
    = <["cart" := JSON_stringify (JLines (cart st))]> (localStorage st)
  ∧ effects (snd res)
    = effects st ++ SetItem "cart" (JSON_stringify (JLines (cart st)))
        :: match fst res with Ret _ => [Notify message kind] | Throw _ => [] end.
Proof.
  unfold saveCart, setItem, showNotification, modify, get, mbind, M_bind. simpl.
  refresh_frame r d.
  destruct r; simpl; rewrite <- ?(assoc_L (++)); done.
Qed.

(** The same without the notification, as [updateQuantity] ends. *)
Lemma save_refresh (st : State) :
  let res := (saveCart;; updateCartUI) st in
  cart (snd res) = cart st
  ∧ localStorage (snd res)
    = <["cart" := JSON_stringify (JLines (cart st))]> (localStorage st)
  ∧ effects (snd res)
    = effects st ++ [SetItem "cart" (JSON_stringify (JLines (cart st)))].
Proof.
  unfold saveCart, setItem, modify, get, mbind, M_bind. simpl.
  refresh_frame r d. by destruct r.
Qed.

Lemma addToCart_unfold (product : Product) (st : State) :
  addToCart product st =
  (saveCart;; updateCartUI;; showNotification "Product added to cart!" "success")
    (set_cart
       match find_line (pid product) (cart st) with
       | Some (i, existingItem) =>
           <[i := set_quantity existingItem
                    (val (num_add (ToNumber (quantity existingItem)) (Int 1)))]> (cart st)
       | None => cart st ++ [new_line product]
       end st).
Proof.
  unfold addToCart. unfold mbind at 1. unfold M_bind at 1. unfold get at 1.
  by destruct (find_line _ _) as [[i existingItem]|].
Qed.

Lemma removeFromCart_unfold (productId : Z) (st : State) :
  removeFromCart productId st =
  (saveCart;; updateCartUI;; showNotification "Product removed from cart!" "success")
    (set_cart (filter (λ item, id item ≠ productId) (cart st)) st).
Proof. reflexivity. Qed.

Lemma updateQuantity_unfold (productId : Z) (q : number) (st : State) :
  updateQuantity productId q st =
  match find_line productId (cart st) with
  | Some (i, item) =>
      (saveCart;; updateCartUI)
        (set_cart (<[i := set_quantity item (val (Math_max (Int 1) q))]> (cart st)) st)
  | None => (Ret tt, st)
  end.
Proof.
  unfold updateQuantity. unfold mbind at 1. unfold M_bind at 1. unfold get at 1.
  by destruct (find_line _ _) as [[i item]|].
Qed.

Lemma cart_addToCart (product : Product) (st : State) :
  cart (exec (addToCart product) st) =
  match find_line (pid product) (cart st) with
  | Some (i, existingItem) =>
      <[i := set_quantity existingItem
               (val (num_add (ToNumber (quantity existingItem)) (Int 1)))]> (cart st)
  | None => cart st ++ [new_line product]
  end.
Proof.
  unfold exec. rewrite addToCart_unfold.
  by rewrite (proj1 (save_refresh_notify _ _ _)).
Qed.

Lemma cart_removeFromCart (productId : Z) (st : State) :
  cart (exec (removeFromCart productId) st)
  = filter (λ item, id item ≠ productId) (cart st).
Proof.
  unfold exec. rewrite removeFromCart_unfold.
  by rewrite (proj1 (save_refresh_notify _ _ _)).
Qed.

Lemma cart_updateQuantity (productId : Z) (q : number) (st : State) :
  cart (exec (updateQuantity productId q) st) =
  match find_line productId (cart st) with
  | Some (i, item) => <[i := set_quantity item (val (Math_max (Int 1) q))]> (cart st)
  | None => cart st
  end.
Proof.
  unfold exec. rewrite updateQuantity_unfold.
  destruct (find_line _ _) as [[i item]|]; [|done].
  by rewrite (proj1 (save_refresh _)).
Qed.

(** [find] on a cart that ends with the only line of the wanted id. *)
Lemma find_line_last (wanted : Z) (c : list CartLine) (item : CartLine) :
  Forall (λ x, id x ≠ wanted) c → id item = wanted →
  find_line wanted (c ++ [item]) = Some (length c, item).
Proof.
  intros Hc Hid. unfold find_line. apply list_find_Some. split_and!.
  - by rewrite lookup_app_r, Nat.sub_diag.
  - done.
  - intros j y Hj Hlt. rewrite lookup_app_l in Hj by done.
    by apply (Forall_lookup_1 _ _ _ _ Hc Hj).
Qed.

Lemma find_line_absent (wanted : Z) (c : list CartLine) :
  Forall (λ x, id x ≠ wanted) c → find_line wanted c = None.
Proof. intros Hc. by apply list_find_None. Qed.

Lemma filter_none {A} (P : A → Prop) `{!∀ x, Decision (P x)} (l : list A) :
  Forall (λ x, ¬ P x) l → filter P l = [].
Proof.
  induction 1 as [|x l Hx _ IH]; [done|].
  by rewrite filter_cons_False.
Qed.

Lemma filter_all {A} (P : A → Prop) `{!∀ x, Decision (P x)} (l : list A) :
  Forall P l → filter P l = l.
Proof.
  induction 1 as [|x l Hx _ IH]; [done|].
  by rewrite filter_cons_True, IH.
Qed.

(** ** Integers in binary64 *)

(** Up to 2^53 every integer is held as it is. *)
Lemma binary64_exact (z : Z) : Z.abs z ≤ 2 ^ 53 → binary64 z = z.
Proof.
  intros Hz. unfold binary64.
  destruct (Z.ltb_spec (Z.abs z) (2 ^ 53)) as [|Hbig]; [done|].
  assert (z = 2 ^ 53 ∨ z = - 2 ^ 53) as [-> | ->] by lia; vm_compute; reflexivity.
Qed.

Lemma round_half_even_floor (m e : Z) : m / 2 ^ e ≤ round_half_even m e.
Proof. unfold round_half_even. repeat case_match; lia. Qed.

(** Rounding keeps a positive integer positive. *)
Lemma binary64_positive (z : Z) : 1 ≤ z → 1 ≤ binary64 z.
Proof.
  intros Hz. unfold binary64. rewrite Z.abs_eq by lia.
  destruct (Z.ltb_spec z (2 ^ 53)) as [|Hbig]; [done|].
  rewrite Z.sgn_pos, Z.mul_1_l by lia.
  assert (He : 0 ≤ Z.log2 z - 52).
  { assert (53 ≤ Z.log2 z); [|lia]. apply Z.log2_le_pow2; lia. }
  assert (Hpow : 0 < 2 ^ (Z.log2 z - 52)) by (apply Z.pow_pos_nonneg; lia).
  assert (Hle : 2 ^ (Z.log2 z - 52) ≤ z).
  { transitivity (2 ^ Z.log2 z); [apply Z.pow_le_mono_r; lia|].
    apply Z.log2_spec. lia. }
  pose proof (round_half_even_floor z (Z.log2 z - 52)) as Hfloor.
  assert (1 ≤ z / 2 ^ (Z.log2 z - 52)).
  { apply Z.div_le_lower_bound; lia. }
  nia.
Qed.

(** ** addToCart *)

Lemma addToCart_increments (c0 : list CartLine) (product p : Product) (k : Z) (s : State) :
  Forall (λ item, id item ≠ pid product) c0 →
  cart s = c0 ++ [set_quantity (new_line product) (val (Int k))] →
  pid p = pid product →
  0 ≤ k < 2 ^ 53 →
  cart (exec (addToCart p) s)
  = c0 ++ [set_quantity (new_line product) (val (Int (k + 1)))].
Proof.
  intros Hfresh Hs Hp Hk. rewrite cart_addToCart, Hs, Hp.
  rewrite find_line_last by done.
  rewrite insert_app_r_alt, Nat.sub_diag by done. simpl.
  by rewrite binary64_exact by lia.
Qed.

Lemma addToCart_increments_all (c0 : list CartLine) (product : Product)
    (more : list Product) :
  Forall (λ item, id item ≠ pid product) c0 →
  Forall (λ p, pid p = pid product) more →
  ∀ (k : Z) (s : State),
    0 ≤ k → k + Z.of_nat (length more) ≤ 2 ^ 53 →
    cart s = c0 ++ [set_quantity (new_line product) (val (Int k))] →
    cart (after_calls (addToCart <$> more) s)
    = c0 ++ [set_quantity (new_line product) (val (Int (k + Z.of_nat (length more))))].
Proof.
  intros Hfresh. induction 1 as [|p more Hp Hmore IH]; intros k s Hk Hbound Hs.
  - by rewrite Z.add_0_r.
  - rewrite fmap_cons, length_cons. rewrite length_cons in Hbound.
    unfold after_calls. cbn [foldl].
    fold (after_calls (addToCart <$> more) (exec (addToCart p) s)).
    rewrite (IH (k + 1)); [|lia|lia|apply addToCart_increments; auto; lia].
    by replace (k + 1 + Z.of_nat (length more)) with (k + Z.of_nat (S (length more))) by lia.
Qed.

(** C1. Starting from a cart with no line of a given product id, after n
    calls of [addToCart] with products of that id (n up to 2^53, the
    largest count that binary64 addition of 1 reaches) the cart is the old
    cart followed by one line of that id, whose quantity is n, and it is
    the only line of that id. The first call appends the line with
    quantity 1; one more call makes the quantity n + 1. *)
Theorem addToCart_same_id_counts (st : State) (product : Product) (more : list Product) :
  Forall (λ item, id item ≠ pid product) (cart st) →
  Forall (λ p, pid p = pid product) more →
  let n := Z.of_nat (S (length more)) in
  n ≤ 2 ^ 53 →
  let st' := after_calls (addToCart <$> product :: more) st in
  let line q :=
    {| id := pid product; name := pname product;
       price := val (pprice product); quantity := val (Int q) |} in
  cart (exec (addToCart product) st) = cart st ++ [line 1]
  ∧ cart st' = cart st ++ [line n]
  ∧ filter (λ item, id item = pid product) (cart st') = [line n]
  ∧ quantity <$> filter (λ item, id item = pid product) (cart st') = [val (Int n)]
  ∧ ∀ p, pid p = pid product → n < 2 ^ 53 →
      cart (exec (addToCart p) st') = cart st ++ [line (n + 1)].
Proof.
  intros Hfresh Hmore n Hn st' line.
  assert (Hfirst : cart (exec (addToCart product) st) = cart st ++ [line 1]).
  { by rewrite cart_addToCart, find_line_absent. }
  assert (Hall : cart st' = cart st ++ [line n]).
  { subst st' line n. rewrite fmap_cons. unfold after_calls. cbn [foldl].
    fold (after_calls (addToCart <$> more) (exec (addToCart product) st)).
    rewrite (addToCart_increments_all (cart st) product more Hfresh Hmore 1);
      [|lia|lia|done].
    by replace (1 + Z.of_nat (length more)) with (Z.of_nat (S (length more))) by lia. }
  assert (Honly : filter (λ item, id item = pid product) (cart st') = [line n]).
  { rewrite Hall, filter_app, filter_none by done. by rewrite filter_cons_True. }
  split_and!; [done|done|done|by rewrite Honly|].
  intros p Hp Hlt.
  apply (addToCart_increments (cart st) product p n st'); auto. lia.
Qed.

Lemma addToCart_same_id_counts_witness :
  cart (after_calls (addToCart <$> [smart_watch; smart_watch; smart_watch]) one_headphones)
  = cart one_headphones
    ++ [{| id := 2; name := "Smart Watch"; price := val 299.99%float;
           quantity := val (Int 3) |}].
Proof.
  refine (proj1 (proj2
    (addToCart_same_id_counts one_headphones smart_watch [smart_watch; smart_watch] _ _ _))).
  - repeat constructor; vm_compute; discriminate.
  - repeat constructor.
  - vm_compute. discriminate.
Defined.

(** ** updateQuantity *)



(** C9. When no line has the given product id, [updateQuantity] does
    nothing at all: it returns, and the cart, the store, the page and the
    list of effects (no [setItem], no notification) are as before. *)
Theorem updateQuantity_absent_is_silent (st : State) (productId : Z) (q : number) :
  Forall (λ item, id item ≠ productId) (cart st) →
  updateQuantity productId q st = (Ret tt, st).
Proof.
  intros Habsent. rewrite updateQuantity_unfold.
  by rewrite find_line_absent.
Qed.

Lemma updateQuantity_absent_is_silent_witness :
  updateQuantity 99 (Int 5) two_lines = (Ret tt, two_lines).
Proof.
  apply updateQuantity_absent_is_silent.
  repeat constructor; vm_compute; discriminate.
Defined.

(** ** The view refresh completes on priced lines *)

Lemma completes_ret {A} (c : list CartLine) (a : A) : completes c (mret a).
Proof. intros st _. exists a, (dom st). by rewrite set_dom_same. Qed.

Lemma completes_bind {A B} (c : list CartLine) (m : M A) (k : A → M B) :
  completes c m → (∀ a, completes c (k a)) → completes c (m ≫= k).
Proof.
  intros Hm Hk st Hc. unfold mbind, M_bind.
  destruct (Hm st Hc) as (a & d & ->).
  destruct (Hk a (set_dom d st) Hc) as (b & d' & ->). by exists b, d'.
Qed.

Lemma completes_get {A} (c : list CartLine) (k : State → M A) :
  (∀ st, cart st = c → completes c (k st)) → completes c (get ≫= k).
Proof. intros Hk st Hc. apply (Hk st Hc st Hc). Qed.

Lemma completes_modify (c : list CartLine) (f : Dom → Dom) :
  completes c (modify (λ st, set_dom (f (dom st)) st)).
Proof. intros st _. by exists tt, (f (dom st)). Qed.

Lemma render_row_priced (c : list CartLine) :
  Forall (λ item, price item ≠ null) c → is_Some (mapM render_row c).
Proof.
  intros Hc. apply mapM_is_Some. eapply Forall_impl; [exact Hc|].
  intros item Hitem. unfold render_row. simpl in *.
  destruct (price item); [done|by eexists].
Qed.

Lemma updateCartUI_completes (c : list CartLine) :
  Forall (λ item, price item ≠ null) c → completes c updateCartUI.
Proof.
  intros Hc. apply completes_get. intros st Hst.
  apply completes_bind.
  { destruct (cart_count (dom st)); [|apply completes_ret].
    apply (completes_modify c (set_cart_count _)). }
  intros _. apply completes_bind.
  { destruct (cart_items (dom st)); [|apply completes_ret].
    apply completes_get. intros st' Hst'.
    destruct (cart_items (dom st')); [|apply completes_ret].
    rewrite Hst'. destruct (render_row_priced c Hc) as [rows Hrows].
    destruct c; [apply (completes_modify _ (set_cart_items EmptyCartMessage))|].
    rewrite Hrows. apply (completes_modify _ (set_cart_items (CartRows rows))). }
  intros _. destruct (cart_total (dom st)); [|apply completes_ret].
  apply completes_bind.
  { intros st' _. rewrite getCartTotal_run. eexists _, (dom st').
    by rewrite set_dom_same. }
  intros total. apply (completes_modify _ (set_cart_total total)).
Qed.

Lemma save_refresh_notify_returns (message kind : string) (st : State) :
  Forall (λ item, price item ≠ null) (cart st) →
  fst ((saveCart;; updateCartUI;; showNotification message kind) st) = Ret tt.
Proof.
  intros Hc.
  unfold saveCart, setItem, showNotification, modify, get, mbind, M_bind. simpl.
  match goal with |- context [updateCartUI ?s] =>
    destruct (updateCartUI_completes (cart st) Hc s) as ([] & d & ->) end; done.
Qed.

(** ** removeFromCart *)

(** C8, as the script has it. When no line has the given product id,
    [removeFromCart] leaves the cart as it was, writes it to the store
    again and, unless the view refresh throws, shows the notification
    "Product removed from cart!"; the refresh does not throw when every
    line has a price. *)
Theorem removeFromCart_absent (st : State) (productId : Z) :
  Forall (λ item, id item ≠ productId) (cart st) →
  let res := removeFromCart productId st in
  cart (snd res) = cart st
  ∧ localStorage (snd res)
    = <["cart" := JSON_stringify (JLines (cart st))]> (localStorage st)
  ∧ effects (snd res)
    = effects st ++ SetItem "cart" (JSON_stringify (JLines (cart st)))
        :: match fst res with
           | Ret _ => [Notify "Product removed from cart!" "success"]
           | Throw _ => []
           end
  ∧ (Forall (λ item, price item ≠ null) (cart st) → fst res = Ret tt).
Proof.
  intros Habsent res. subst res. rewrite removeFromCart_unfold.
  rewrite filter_all by done.
  destruct (save_refresh_notify "Product removed from cart!" "success"
              (set_cart (cart st) st)) as (Hcart & Hstore & Heffects).
  split_and!; [done..|].
  intros Hpriced. by apply save_refresh_notify_returns.
Qed.

Lemma removeFromCart_absent_witness :
  cart (snd (removeFromCart 99 two_lines)) = cart two_lines.
Proof.
  refine (proj1 (removeFromCart_absent two_lines 99 _)).
  repeat constructor; vm_compute; discriminate.
Defined.

(** C8, as stated, fails: with two lines in the cart, removing the id 99
    that no line has leaves the cart as it was and still shows the
    notification. *)
Lemma removeFromCart_absent_still_notifies :
  Forall (λ item, id item ≠ 99) (cart two_lines)
  ∧ cart (exec (removeFromCart 99) two_lines) = cart two_lines
  ∧ effects (exec (removeFromCart 99) two_lines)
    = effects two_lines
      ++ [SetItem "cart" (JSON_stringify (JLines (cart two_lines)));
          Notify "Product removed from cart!" "success"]
  ∧ effects (exec (removeFromCart 99) two_lines) ≠ effects two_lines.
Proof.
  split_and!.
  - repeat constructor; vm_compute; discriminate.
  - vm_compute. reflexivity.
  - vm_compute. reflexivity.
  - vm_compute. discriminate.
Qed.

(** ** The quantity field *)

(** The text field stores the larger of 1 and what [parseInt] reads. *)
Lemma quantity_input_stores (st : State) (r : Row) (value : string)
    (i : nat) (item : CartLine) :
  find_line (row_id r) (cart st) = Some (i, item) →
  cart (exec (use_control r (QuantityInput value)) st)
  = <[i := set_quantity item (val (Math_max (Int 1) (parseInt value)))]> (cart st).
Proof. intros Hfind. simpl. by rewrite cart_updateQuantity, Hfind. Qed.

(** Zero and negative input is clamped to 1. *)
Lemma quantity_input_low (st : State) (r : Row) (value : string)
    (i : nat) (item : CartLine) (z : Z) :
  find_line (row_id r) (cart st) = Some (i, item) →
  parseInt value = Int z → z ≤ 0 →
  cart (exec (use_control r (QuantityInput value)) st)
  = <[i := set_quantity item (val (Int 1))]> (cart st).
Proof.
  intros Hfind Hparse Hz. rewrite (quantity_input_stores _ _ _ _ _ Hfind), Hparse.
  simpl. by rewrite Z.max_l by lia.
Qed.

(** Input without a leading digit is not clamped: NaN is stored. *)
Lemma quantity_input_NaN (st : State) (r : Row) (value : string)
    (i : nat) (item : CartLine) :
  find_line (row_id r) (cart st) = Some (i, item) →
  parseInt value = NaN →
  cart (exec (use_control r (QuantityInput value)) st)
  = <[i := set_quantity item (val NaN)]> (cart st).
Proof.
  intros Hfind Hparse. by rewrite (quantity_input_stores _ _ _ _ _ Hfind), Hparse.
Qed.

(** C4, where the script departs from it. With the headphones in the cart
    and their row on the page, a change event of the quantity field with
    the text "abc", or with the empty text of a cleared field, stores NaN
    as the quantity, not 1, and writes [null] for it to the store; the
    texts "0" and "-3" do store 1. *)
Theorem quantity_input_not_a_number :
  cart_items (dom one_headphones) = Some (CartRows [headphones_row])
  ∧ quantity <$> cart (exec (use_control headphones_row (QuantityInput "abc")) one_headphones)
    = [val NaN]
  ∧ quantity <$> cart (exec (use_control headphones_row (QuantityInput "")) one_headphones)
    = [val NaN]
  ∧ localStorage (exec (use_control headphones_row (QuantityInput "")) one_headphones) !! "cart"
    = Some (Json (JLines [set_quantity (new_line headphones) null]))
  ∧ quantity <$> cart (exec (use_control headphones_row (QuantityInput "0")) one_headphones)
    = [val (Int 1)]
  ∧ quantity <$> cart (exec (use_control headphones_row (QuantityInput "-3")) one_headphones)
    = [val (Int 1)].
Proof. split_and!; vm_compute; reflexivity. Qed.

(** ** Hydration *)

(** Loading the script, by what the key [cart] holds. *)
Lemma AppState_init_cases (storage : gmap string text) (page : Dom) :
  let started lines :=
    Started {| cart := lines; user := None; isLoggedIn := false;
               localStorage := storage; dom := page; effects := [] |} in
  AppState_init storage page =
  match storage !! "cart" with
  | None => started []
  | Some (NotJson raw) => Crashed SyntaxError
  | Some (Json (JLines lines)) => started lines
  | Some (Json doc) => if truthy doc then Foreign doc else started []
  end.
Proof.
  unfold AppState_init, hydrate, JSON_parse.
  destruct (storage !! "cart") as [[raw|doc]|]; [done| |done].
  destruct doc as [|[]|x|s|lines|label]; try done.
  - unfold truthy. destruct (classify x); reflexivity.
  - unfold truthy. destruct (String.eqb s ""); reflexivity.
Qed.

(** Loading the script, by what it finds under the key [cart]: it starts
    with the empty cart when the key is absent or holds the text of a
    falsy document ([null], [false], [0], the empty string), which is
    what the fallback [|| []] is there for, and with the stored lines
    when the key holds an array of lines; on a text that is not JSON,
    [JSON.parse] throws a SyntaxError that nothing catches, and no
    [AppState] is made. *)
Theorem hydration_outcomes (storage : gmap string text) (page : Dom) :
  let started lines :=
    Started {| cart := lines; user := None; isLoggedIn := false;
               localStorage := storage; dom := page; effects := [] |} in
  (storage !! "cart" = None → AppState_init storage page = started [])
  ∧ (∀ doc, storage !! "cart" = Some (Json doc) → truthy doc = false →
       AppState_init storage page = started [])
  ∧ (∀ lines, storage !! "cart" = Some (Json (JLines lines)) →
       AppState_init storage page = started lines)
  ∧ (∀ raw, storage !! "cart" = Some (NotJson raw) →
       hydrate storage = Throw SyntaxError
       ∧ AppState_init storage page = Crashed SyntaxError).
Proof.
  intros started. pose proof (AppState_init_cases storage page) as Hinit.
  simpl in Hinit. fold started in Hinit. split_and!.
  - intros Hkey. by rewrite Hinit, Hkey.
  - intros doc Hkey Hfalsy. rewrite Hinit, Hkey, Hfalsy. by destruct doc.
  - intros lines Hkey. by rewrite Hinit, Hkey.
  - intros raw Hkey. split; [|by rewrite Hinit, Hkey].
    unfold hydrate. by rewrite Hkey.
Qed.

(** C3, where the script departs from it. A stored cart that is not JSON,
    a cut-off text for one, does not give the empty cart: [JSON.parse]
    throws a SyntaxError, the fallback [|| []] is never reached, the
    error leaves the script and no [AppState] is made, so the page load
    ends there. This is so for every text that is not JSON and on every
    page; the fallback only takes care of a missing key, for which the
    script does start with the empty cart. *)
Theorem hydration_propagates_parse_error :
  let storage : gmap string text := {["cart" := NotJson "[{id:1,qty:2"]} in
  storage !! "cart" = Some (NotJson "[{id:1,qty:2")
  ∧ hydrate storage = Throw SyntaxError
  ∧ AppState_init storage cart_page = Crashed SyntaxError
  ∧ page_load storage cart_page = Crashed SyntaxError
  ∧ (∀ (stored : gmap string text) (page : Dom) (raw : string),
       stored !! "cart" = Some (NotJson raw) →
       hydrate stored = Throw SyntaxError
       ∧ AppState_init stored page = Crashed SyntaxError
       ∧ page_load stored page = Crashed SyntaxError)
  ∧ AppState_init ∅ cart_page = Started first_visit.
Proof.
  split_and!; try reflexivity.
  intros stored page raw Hraw.
  unfold page_load, AppState_init, hydrate. by rewrite Hraw.
Qed.

(** ** Checkout *)

(** C7. When the order request succeeds, submitting the checkout form
    leaves the cart empty and the text of the empty cart under the key
    [cart]; when it fails, the handler throws before it touches the cart:
    the cart and the store are as before, nothing is written, and the
    failure's message is shown. *)
Theorem checkout_clears_only_on_success (st : State) :
  let total := fold_left (λ total item, (total + line_amount item)%float) (cart st) 0%float in
  let request := Request "/orders" (Some (cart st, total)) in
  (∀ orderResult,
     let st' := exec (submit true (Checkout (Ok orderResult))) st in
     cart st' = []
     ∧ localStorage st' !! "cart" = Some (Json (JLines []))
     ∧ effects st'
       = effects st
         ++ [request;
             SetItem "lastOrder" (JSON_stringify orderResult);
             SetItem "cart" (Json (JLines []));
             Redirect "order_successful.html";
             Notify "Form submitted successfully!" "success"])
  ∧ (∀ message,
     let st' := exec (submit true (Checkout (Failed message))) st in
     handleFormSubmission (Checkout (Failed message)) st
     = (Throw (ApiError message), emit request st)
     ∧ cart st' = cart st
     ∧ localStorage st' = localStorage st
     ∧ effects st' = effects st ++ [request; Notify message "error"]).
Proof.
  intros total request. split.
  - intros orderResult st'. subst st'. unfold exec. simpl. split_and!.
    + done.
    + by rewrite lookup_insert_eq.
    + by rewrite <- !(assoc_L (++)).
  - intros message st'. subst st'. unfold exec. simpl. split_and!; [done..|].
    by rewrite <- !(assoc_L (++)).
Qed.

(** ** getCartTotal *)

Lemma sum_of_amounts_app (c : list CartLine) (item : CartLine) (n : nat) :
  (n ≤ length c)%nat → sum_of_amounts (c ++ [item]) n = sum_of_amounts c n.
Proof.
  induction n as [|n IH]; intros Hn; [done|]. simpl.
  rewrite IH by lia. by rewrite lookup_app_l by lia.
Qed.

(** C6, as the script has it. [getCartTotal()] returns the sum, over the
    lines in cart order and starting from 0, of price times quantity in
    binary64 arithmetic, and leaves the state as it was: three pairs of
    headphones at 99.99 total 299.96999999999997, and a line of price p
    and integer quantity q alone totals 0 + p * q. *)
Theorem getCartTotal_is_ordered_sum (st : State) :
  getCartTotal st = (Ret (sum_of_amounts (cart st) (length (cart st))), st)
  ∧ (∀ i n p q,
       cart st = [{| id := i; name := n; price := val p; quantity := val (Int q) |}] →
       fst (getCartTotal st) = Ret (0 + p * Z2F q)%float)
  ∧ quantity <$> cart three_headphones = [val (Int 3)]
  ∧ fst (getCartTotal three_headphones) = Ret 299.96999999999997%float.
Proof.
  split_and!.
  - rewrite getCartTotal_run. do 2 f_equal.
    induction (cart st) as [|item c IH] using rev_ind; [done|].
    rewrite fold_left_app, length_app, Nat.add_1_r. simpl.
    rewrite IH, sum_of_amounts_app by done.
    by rewrite lookup_app_r, Nat.sub_diag by done.
  - intros i n p q Hcart. by rewrite getCartTotal_run, Hcart.
  - vm_compute. reflexivity.
  - vm_compute. reflexivity.
Qed.

(** C6, as stated, fails: one pair of headphones, two hubs and three mice
    total 379.93999999999994 when added in that order and 379.94 when the
    cart was filled in the opposite order; one of each totals 219.97 in
    the one order and 219.96999999999997 in the other. *)
Lemma getCartTotal_depends_on_order :
  cart six_units_reversed ≡ₚ cart six_units
  ∧ quantity <$> cart six_units = [val (Int 1); val (Int 2); val (Int 3)]
  ∧ fst (getCartTotal six_units) = Ret 379.93999999999994%float
  ∧ fst (getCartTotal six_units_reversed) = Ret 379.94%float
  ∧ fst (getCartTotal six_units) ≠ fst (getCartTotal six_units_reversed)
  ∧ cart three_lines_reversed ≡ₚ cart three_lines
  ∧ fst (getCartTotal three_lines) = Ret 219.97%float
  ∧ fst (getCartTotal three_lines_reversed) = Ret 219.96999999999997%float
  ∧ fst (getCartTotal three_lines) ≠ fst (getCartTotal three_lines_reversed).
Proof.
  split_and!.
  - replace (cart six_units_reversed) with (reverse (cart six_units))
      by (vm_compute; reflexivity).
    apply reverse_Permutation.
  - vm_compute. reflexivity.
  - vm_compute. reflexivity.
  - vm_compute. reflexivity.
  - intros H.
    pose proof (f_equal (λ r, match r with
                              | Ret x => PrimFloat.eqb x 379.94
                              | Throw _ => false
                              end) H) as E.
    vm_compute in E. discriminate.
  - replace (cart three_lines_reversed) with (reverse (cart three_lines))
      by (vm_compute; reflexivity).
    apply reverse_Permutation.
  - vm_compute. reflexivity.
  - vm_compute. reflexivity.
  - intros H.
    pose proof (f_equal (λ r, match r with
                              | Ret x => PrimFloat.eqb x 219.97
                              | Throw _ => false
                              end) H) as E.
    vm_compute in E. discriminate.
Qed.

(** ** Saving and hydrating *)

Lemma classify_PZero (x : float) : classify x = PZero → x = 0%float.
Proof.
  rewrite classify_spec. unfold SF64classify, SFclassify.
  intros H. rewrite <- (SF2Prim_Prim2SF x).
  destruct (Prim2SF x) as [[]|[]| |[] m e];
    repeat case_match; try discriminate; auto.
Qed.

Lemma classify_NZero (x : float) : classify x = NZero → x = (-0)%float.
Proof.
  rewrite classify_spec. unfold SF64classify, SFclassify.
  intros H. rewrite <- (SF2Prim_Prim2SF x).
  destruct (Prim2SF x) as [[]|[]| |[] m e];
    repeat case_match; try discriminate; auto.
Qed.

Lemma eqb_refl_positive (x : float) :
  classify x = PSubn ∨ classify x = PNormal → PrimFloat.eqb x x = true.
Proof.
  rewrite classify_spec, FloatAxioms.eqb_spec. unfold SF64classify, SFclassify.
  destruct (Prim2SF x) as [[]|[]| |[] m e]; simpl; intros [H|H];
    repeat case_match; try discriminate.
  all: unfold SFeqb, SFcompare; by rewrite Z.compare_refl, Pos.compare_cont_refl.
Qed.

(** The text of an amount reads back as a number that [===] takes for the
    amount, and as the amount itself unless that is the negative zero. *)
Lemma stringify_price_amount (x : float) :
  is_amount x = true →
  strict_equal_price (stringify_price (val x)) (val x) = true
  ∧ (x ≠ (-0)%float → stringify_price (val x) = val x).
Proof.
  unfold is_amount, stringify_price.
  destruct (classify x) eqn:Hx; try discriminate; intros _.
  - split; [|done]. simpl. apply eqb_refl_positive. by right.
  - split; [|done]. simpl. apply eqb_refl_positive. by left.
  - apply classify_PZero in Hx as ->. by split.
  - apply classify_NZero in Hx as ->. by split.
Qed.

Lemma stringify_line_well_formed (item : CartLine) :
  well_formed item = true →
  same_line (stringify_line item) item
  ∧ (price item ≠ val (-0)%float → stringify_line item = item).
Proof.
  destruct item as [i n p q]. unfold well_formed, same_line, stringify_line. simpl.
  destruct q as [|[|z]]; try discriminate.
  destruct p as [|x]; try discriminate.
  intros [_ Hx]%andb_prop.
  destruct (stringify_price_amount x Hx) as [Heq Hsame].
  split; [done|]. intros Hp. rewrite Hsame; [done|]. by intros ->.
Qed.

Lemma saveCart_run (st : State) :
  saveCart st =
  (Ret tt,
   emit (SetItem "cart" (JSON_stringify (JLines (cart st))))
     {| cart := cart st; user := user st; isLoggedIn := isLoggedIn st;
        localStorage := <["cart" := JSON_stringify (JLines (cart st))]> (localStorage st);
        dom := dom st; effects := effects st |}).
Proof. reflexivity. Qed.

(** Hydrating from a store in which [saveCart] wrote the cart [c]. *)
Lemma AppState_init_saved (storage : gmap string text) (c : list CartLine) (page : Dom) :
  storage !! "cart" = Some (JSON_stringify (JLines c)) →
  AppState_init storage page =
  Started {| cart := stringify_line <$> c; user := None; isLoggedIn := false;
             localStorage := storage; dom := page; effects := [] |}.
Proof. intros Hc. unfold AppState_init, hydrate. by rewrite Hc. Qed.

(** C10. For a cart whose lines have integer ids, integer quantities of at
    least 1 and prices that are non-negative amounts, hydrating from the
    store that [saveCart] wrote gives a cart with the same lines in the
    same order: equal field by field under [===], and identical unless a
    price is the negative zero, which is written as [0]. *)
Theorem save_then_hydrate (st : State) (page : Dom) :
  Forall (λ item, well_formed item = true) (cart st) →
  ∃ st',
    AppState_init (localStorage (exec saveCart st)) page = Started st'
    ∧ Forall2 same_line (cart st') (cart st)
    ∧ (Forall (λ item, price item ≠ val (-0)%float) (cart st) → cart st' = cart st).
Proof.
  intros Hwf. eexists. split.
  { apply (AppState_init_saved _ (cart st)).
    unfold exec. rewrite saveCart_run. simpl. apply lookup_insert_eq. }
  simpl. split.
  - induction Hwf as [|item c Hitem _ IH]; [constructor|].
    rewrite fmap_cons. constructor; [|done].
    by apply stringify_line_well_formed.
  - intros Hnz. induction Hwf as [|item c Hitem _ IH]; [done|].
    inversion_clear Hnz as [|?? Hp Hc]. rewrite fmap_cons, IH by done.
    by rewrite (proj2 (stringify_line_well_formed item Hitem)).
Qed.

Lemma save_then_hydrate_witness :
  ∃ st',
    AppState_init (localStorage (exec saveCart two_lines)) cart_page = Started st'
    ∧ Forall2 same_line (cart st') (cart two_lines)
    ∧ (Forall (λ item, price item ≠ val (-0)%float) (cart two_lines)
       → cart st' = cart two_lines).
Proof.
  apply (save_then_hydrate two_lines cart_page).
  repeat constructor.
Defined.

(** ** Unique product ids *)

Lemma ids_stringify (c : list CartLine) : id <$> (stringify_line <$> c) = id <$> c.
Proof. rewrite <- list_fmap_compose. by apply list_fmap_ext. Qed.

Lemma ids_unique_saved (st st' : State) :
  NoDup (id <$> cart st') →
  localStorage st' = <["cart" := JSON_stringify (JLines (cart st'))]> (localStorage st) →
  ids_unique st'.
Proof.
  intros Hnodup Hstore. split; [done|]. intros t. rewrite Hstore, lookup_insert_eq.
  intros [= <-]. eexists. split; [done|]. by rewrite ids_stringify.
Qed.

Lemma ids_unique_kept (st st' : State) :
  ids_unique st →
  cart st' = cart st →
  localStorage st' !! "cart" = localStorage st !! "cart" →
  ids_unique st'.
Proof. intros [Hc Hs] Hcart Hstore. split; [by rewrite Hcart|]. by rewrite Hstore. Qed.

Lemma ids_set_quantity (c : list CartLine) (i : nat) (item : CartLine)
    (q : nullable number) :
  c !! i = Some item → id <$> <[i := set_quantity item q]> c = id <$> c.
Proof.
  intros Hi. rewrite list_fmap_insert. apply list_insert_id.
  by rewrite list_lookup_fmap, Hi.
Qed.

Lemma ids_unique_addToCart (st : State) (product : Product) :
  ids_unique st → ids_unique (exec (addToCart product) st).
Proof.
  intros [Hc _]. apply (ids_unique_saved st).
  - rewrite cart_addToCart.
    destruct (find_line _ _) as [[i existingItem]|] eqn:Hfind.
    + apply list_find_Some in Hfind as (Hi & _ & _).
      by rewrite (ids_set_quantity _ _ _ _ Hi).
    + apply list_find_None in Hfind.
      rewrite fmap_app. apply NoDup_app. split_and!; [done| |apply NoDup_singleton].
      intros x (item & -> & Hitem)%list_elem_of_fmap [= Hx]%list_elem_of_singleton.
      by apply (proj1 (Forall_forall _ _) Hfind item).
  - unfold exec at 1. rewrite addToCart_unfold.
    rewrite (proj1 (proj2 (save_refresh_notify _ _ _))). simpl.
    by rewrite cart_addToCart.
Qed.

Lemma ids_unique_removeFromCart (st : State) (productId : Z) :
  ids_unique st → ids_unique (exec (removeFromCart productId) st).
Proof.
  intros [Hc _]. apply (ids_unique_saved st).
  - rewrite cart_removeFromCart.
    eapply sublist_NoDup; [exact Hc|]. apply fmap_sublist, sublist_filter.
  - unfold exec at 1. rewrite removeFromCart_unfold.
    rewrite (proj1 (proj2 (save_refresh_notify _ _ _))). simpl.
    by rewrite cart_removeFromCart.
Qed.

Lemma ids_unique_updateQuantity (st : State) (productId : Z) (q : number) :
  ids_unique st → ids_unique (exec (updateQuantity productId q) st).
Proof.
  intros Hst. unfold exec. rewrite updateQuantity_unfold.
  destruct (find_line _ _) as [[i item]|] eqn:Hfind; [|done].
  apply list_find_Some in Hfind as (Hi & _ & _).
  destruct (save_refresh
    (set_cart (<[i := set_quantity item (val (Math_max (Int 1) q))]> (cart st)) st))
    as (Hcart & Hstore & _).
  apply (ids_unique_saved st).
  - rewrite Hcart. simpl. rewrite (ids_set_quantity _ _ _ _ Hi). apply Hst.
  - by rewrite Hstore, Hcart.
Qed.

Lemma ids_unique_submit (st : State) (valid : bool) (form : submission) :
  ids_unique st → ids_unique (exec (submit valid form) st).
Proof.
  intros Hst. destruct valid; [|by apply (ids_unique_kept st)].
  destruct form as [[r|m]|[r|m]|[r|m]|[r|m]|[r|m]|];
    try (by apply (ids_unique_kept st)).
  - apply (ids_unique_kept st); [done..|].
    unfold exec. simpl. by rewrite lookup_insert_ne.
  - split; [constructor|]. unfold exec. simpl. rewrite lookup_insert_eq.
    intros t [= <-]. exists []. split; [done|constructor].
Qed.

Lemma ids_unique_page_load (storage : gmap string text) (page : Dom) (st' : State) :
  (∀ t, storage !! "cart" = Some t → ∃ c0, t = Json (JLines c0) ∧ NoDup (id <$> c0)) →
  page_load storage page = Started st' →
  ids_unique st'.
Proof.
  intros Hstore. unfold page_load. rewrite AppState_init_cases.
  destruct (storage !! "cart") as [t|] eqn:Ht.
  - destruct (Hstore t eq_refl) as (c0 & -> & Hc0).
    intros [= <-]. unfold exec. refresh_frame r d.
    split; [done|]. simpl. intros t. rewrite Ht. intros [= <-]. eauto.
  - intros [= <-]. unfold exec. refresh_frame r d.
    split; [constructor|]. simpl. intros t. by rewrite Ht.
Qed.

Lemma reachable_ids_unique (st : State) : reachable st → ids_unique st.
Proof.
  induction 1 as [storage page st Hnone Hload|st st' _ IH Hstep].
  - apply (ids_unique_page_load storage page); [|done].
    intros t. by rewrite Hnone.
  - destruct Hstep as [st product|st productId|st productId q|st valid form|st page st' Hload].
    + by apply ids_unique_addToCart.
    + by apply ids_unique_removeFromCart.
    + by apply ids_unique_updateQuantity.
    + by apply ids_unique_submit.
    + apply (ids_unique_page_load (localStorage st) page); [|done]. apply IH.
Qed.

(** C5. In every state reached from a first page load with an empty cart
    by calls of [addToCart], [removeFromCart] and [updateQuantity], form
    submissions and further page loads that hydrate the saved cart, no two
    lines of the cart have the same product id. *)
Theorem reachable_cart_ids_unique (st : State) :
  reachable st →
  NoDup (id <$> cart st)
  ∧ ∀ i j a b, cart st !! i = Some a → cart st !! j = Some b → id a = id b → i = j.
Proof.
  intros [Hnodup _]%reachable_ids_unique. split; [done|].
  intros i j a b Hi Hj Hab.
  apply (proj1 (NoDup_alt _) Hnodup i j (id a)).
  - by rewrite list_lookup_fmap, Hi.
  - by rewrite list_lookup_fmap, Hj, Hab.
Qed.

(** Every page load from a reachable state starts: the hydration neither
    throws nor yields something that is not a cart. *)
Lemma reachable_page_load_starts (st : State) (page : Dom) :
  reachable st → ∃ st', page_load (localStorage st) page = Started st'.
Proof.
  intros [_ Hstore]%reachable_ids_unique. unfold page_load.
  rewrite AppState_init_cases.
  destruct (localStorage st !! "cart") as [t|]; [|by eexists].
  destruct (Hstore t eq_refl) as (c0 & -> & _). by eexists.
Qed.

Lemma first_visit_reachable : reachable first_visit.
Proof. by apply (reachable_first ∅ cart_page). Qed.

Lemma two_lines_reachable : reachable two_lines.
Proof.
  unfold two_lines, after_calls. cbn [foldl].
  do 2 (eapply reachable_step; [|apply step_addToCart]).
  apply first_visit_reachable.
Qed.

Lemma reachable_cart_ids_unique_witness :
  NoDup (id <$> cart two_lines).
Proof.
  exact (proj1 (reachable_cart_ids_unique two_lines two_lines_reachable)).
Defined.

(** * Further properties of the cart manager *)

(** ** The store mirrors the cart *)

Lemma stringify_price_idempotent (p : nullable float) :
  stringify_price (stringify_price p) = stringify_price p.
Proof.
  destruct p as [|x]; [done|]. unfold stringify_price.
  destruct (classify x) eqn:Hx; try done; by rewrite Hx.
Qed.

Lemma stringify_line_idempotent (item : CartLine) :
  stringify_line (stringify_line item) = stringify_line item.
Proof.
  destruct item as [i n p q]. unfold stringify_line. simpl.
  rewrite stringify_price_idempotent. by destruct q as [|[|z]].
Qed.

Lemma store_mirrors_saved (st st' : State) :
  localStorage st' = <["cart" := JSON_stringify (JLines (cart st'))]> (localStorage st) →
  store_mirrors_cart st'.
Proof. intros Hstore. right. by rewrite Hstore, lookup_insert_eq. Qed.

Lemma store_mirrors_kept (st st' : State) :
  store_mirrors_cart st →
  cart st' = cart st →
  localStorage st' !! "cart" = localStorage st !! "cart" →
  store_mirrors_cart st'.
Proof. unfold store_mirrors_cart. intros Hst -> ->. done. Qed.

Lemma storage_addToCart (product : Product) (st : State) :
  localStorage (exec (addToCart product) st)
  = <["cart" := JSON_stringify (JLines (cart (exec (addToCart product) st)))]>
      (localStorage st).
Proof.
  unfold exec at 1. rewrite addToCart_unfold.
  rewrite (proj1 (proj2 (save_refresh_notify _ _ _))). simpl.
  by rewrite cart_addToCart.
Qed.

Lemma storage_removeFromCart (productId : Z) (st : State) :
  localStorage (exec (removeFromCart productId) st)
  = <["cart" := JSON_stringify (JLines (cart (exec (removeFromCart productId) st)))]>
      (localStorage st).
Proof.
  unfold exec at 1. rewrite removeFromCart_unfold.
  rewrite (proj1 (proj2 (save_refresh_notify _ _ _))). simpl.
  by rewrite cart_removeFromCart.
Qed.

Lemma storage_updateQuantity (productId : Z) (q : number) (st : State)
    (i : nat) (item : CartLine) :
  find_line productId (cart st) = Some (i, item) →
  localStorage (exec (updateQuantity productId q) st)
  = <["cart" := JSON_stringify (JLines (cart (exec (updateQuantity productId q) st)))]>
      (localStorage st).
Proof.
  intros Hfind. rewrite cart_updateQuantity. unfold exec.
  rewrite updateQuantity_unfold, Hfind.
  by rewrite (proj1 (proj2 (save_refresh _))).
Qed.

Lemma store_mirrors_step (st st' : State) :
  store_mirrors_cart st → step st st' → store_mirrors_cart st'.
Proof.
  intros Hst Hstep.
  destruct Hstep as [st product|st productId|st productId q|st valid form|st page st' Hload].
  - apply (store_mirrors_saved st), storage_addToCart.
  - apply (store_mirrors_saved st), storage_removeFromCart.
  - destruct (find_line productId (cart st)) as [[i item]|] eqn:Hfind.
    + by apply (store_mirrors_saved st), (storage_updateQuantity _ _ _ i item).
    + unfold exec. by rewrite updateQuantity_unfold, Hfind.
  - destruct valid; [|by apply (store_mirrors_kept st)].
    destruct form as [[r|m]|[r|m]|[r|m]|[r|m]|[r|m]|];
      try (by apply (store_mirrors_kept st)).
    + apply (store_mirrors_kept st); [done..|].
      unfold exec. simpl. by rewrite lookup_insert_ne.
    + right. unfold exec. simpl. by rewrite lookup_insert_eq.
  - revert Hload. unfold page_load. rewrite AppState_init_cases.
    destruct Hst as [[Hnone Hcart]|Hsome].
    + rewrite Hnone. intros [= <-]. left. unfold exec. refresh_frame r d. done.
    + rewrite Hsome. simpl. intros [= <-]. right. unfold exec. refresh_frame r d.
      simpl. rewrite Hsome. unfold JSON_stringify. do 3 f_equal.
      rewrite <- list_fmap_compose. apply list_fmap_ext.
      intros _ item _. simpl. by rewrite stringify_line_idempotent.
Qed.

Lemma reachable_store_mirrors (st : State) : reachable st → store_mirrors_cart st.
Proof.
  induction 1 as [storage page st Hnone Hload|st st' _ IH Hstep];
    [|by eapply store_mirrors_step].
  revert Hload. unfold page_load. rewrite AppState_init_cases, Hnone.
  intros [= <-]. left. unfold exec. refresh_frame r d. done.
Qed.

(** In every reachable state a new page load finds the cart again: the
    script starts, and its cart is the cart of the state as
    [JSON.stringify] writes it (NaN quantities and prices that are not
    finite come back as [null]); it is the very same cart when every line
    is well formed and no price is the negative zero. *)
Theorem reload_restores_cart (st : State) (page : Dom) :
  reachable st →
  ∃ st',
    AppState_init (localStorage st) page = Started st'
    ∧ cart st' = stringify_line <$> cart st
    ∧ (Forall (λ item, well_formed item = true ∧ price item ≠ val (-0)%float) (cart st) →
       cart st' = cart st).
Proof.
  intros Hst%reachable_store_mirrors. rewrite AppState_init_cases.
  assert (Hsame : Forall (λ item, well_formed item = true ∧ price item ≠ val (-0)%float)
                    (cart st) → stringify_line <$> cart st = cart st).
  { induction 1 as [|item c [Hwf Hnz] _ IH]; [done|].
    rewrite fmap_cons, IH. by rewrite (proj2 (stringify_line_well_formed item Hwf)). }
  destruct Hst as [[Hnone Hcart]|Hsome].
  - rewrite Hnone. rewrite Hcart in *. eexists. split_and!; done.
  - rewrite Hsome. eexists. split_and!; done.
Qed.

Lemma reload_restores_cart_witness :
  ∃ st',
    AppState_init (localStorage two_lines) cart_page = Started st'
    ∧ cart st' = stringify_line <$> cart two_lines
    ∧ (Forall (λ item, well_formed item = true ∧ price item ≠ val (-0)%float)
         (cart two_lines) →
       cart st' = cart two_lines).
Proof. exact (reload_restores_cart two_lines cart_page two_lines_reachable). Defined.

(** ** Removing *)

(** After [removeFromCart(id)] no line has that id, the lines left are the
    other lines in their old order, and a second call changes neither the
    cart nor the store. *)
Theorem removeFromCart_removes_once (st : State) (productId : Z) :
  let st' := exec (removeFromCart productId) st in
  Forall (λ item, id item ≠ productId) (cart st')
  ∧ cart st' `sublist_of` cart st
  ∧ (∀ item, id item ≠ productId → item ∈ cart st → item ∈ cart st')
  ∧ cart (exec (removeFromCart productId) st') = cart st'
  ∧ localStorage (exec (removeFromCart productId) st') = localStorage st'.
Proof.
  intros st'. subst st'.
  assert (Hgone : Forall (λ item, id item ≠ productId)
                    (cart (exec (removeFromCart productId) st))).
  { rewrite cart_removeFromCart. apply Forall_forall.
    by intros item [? _]%list_elem_of_filter. }
  assert (Hagain : cart (exec (removeFromCart productId) (exec (removeFromCart productId) st))
                   = cart (exec (removeFromCart productId) st)).
  { rewrite (cart_removeFromCart productId (exec _ st)). by apply filter_all. }
  split_and!; [done| | |done|].
  - rewrite cart_removeFromCart. apply sublist_filter.
  - intros item Hid Hin. rewrite cart_removeFromCart. by apply list_elem_of_filter.
  - rewrite storage_removeFromCart, Hagain, storage_removeFromCart.
    apply insert_insert_eq.
Qed.

(** ** Lines stay where they are *)

(** [addToCart] and [updateQuantity] never move a line and never change
    its id, name or price; [addToCart] makes the cart one line longer
    when no line has the product's id and keeps its length otherwise, and
    [updateQuantity] keeps its length. *)
Theorem lines_stay_in_place (st : State) (i : nat) (item : CartLine) :
  cart st !! i = Some item →
  (∀ product,
     ∃ item', cart (exec (addToCart product) st) !! i = Some item'
       ∧ id item' = id item ∧ name item' = name item ∧ price item' = price item)
  ∧ (∀ productId q,
     ∃ item', cart (exec (updateQuantity productId q) st) !! i = Some item'
       ∧ id item' = id item ∧ name item' = name item ∧ price item' = price item)
  ∧ (∀ product,
     length (cart (exec (addToCart product) st))
     = (length (cart st)
        + match find_line (pid product) (cart st) with Some _ => 0 | None => 1 end)%nat)
  ∧ (∀ productId q,
     length (cart (exec (updateQuantity productId q) st)) = length (cart st)).
Proof.
  intros Hi.
  assert (Hset : ∀ j other q,
    cart st !! j = Some other →
    ∃ item', <[j := set_quantity other q]> (cart st) !! i = Some item'
      ∧ id item' = id item ∧ name item' = name item ∧ price item' = price item).
  { intros j other q Hj. destruct (decide (i = j)) as [->|Hne].
    - rewrite list_lookup_insert_eq by (by eapply lookup_lt_Some).
      rewrite Hi in Hj. injection Hj as <-. by eexists.
    - rewrite list_lookup_insert_ne by done. by eexists. }
  split_and!.
  - intros product. rewrite cart_addToCart.
    destruct (find_line _ _) as [[j other]|] eqn:Hfind.
    + apply list_find_Some in Hfind as (Hj & _). by apply Hset.
    + rewrite lookup_app_l by (by eapply lookup_lt_Some). by eexists.
  - intros productId q. rewrite cart_updateQuantity.
    destruct (find_line _ _) as [[j other]|] eqn:Hfind.
    + apply list_find_Some in Hfind as (Hj & _). by apply Hset.
    + by eexists.
  - intros product. rewrite cart_addToCart.
    destruct (find_line _ _) as [[j other]|].
    + rewrite length_insert. lia.
    + by rewrite length_app.
  - intros productId q. rewrite cart_updateQuantity.
    destruct (find_line _ _) as [[j other]|]; [|done]. by rewrite length_insert.
Qed.

Lemma lines_stay_in_place_witness :
  ∃ item', cart (exec (addToCart headphones) two_lines) !! 1%nat = Some item'
    ∧ id item' = 2 ∧ name item' = "Smart Watch" ∧ price item' = val 299.99%float.
Proof.
  refine (proj1 (lines_stay_in_place two_lines 1 (new_line smart_watch) _) headphones).
  vm_compute. reflexivity.
Defined.

(** ** Quantities stay positive integers *)

Lemma positive_quantity_insert (c : list CartLine) (i : nat) (item : CartLine) (q : Z) :
  Forall positive_quantity c → 1 ≤ q →
  Forall positive_quantity (<[i := set_quantity item (val (Int q))]> c).
Proof.
  intros Hc Hq. apply Forall_insert; [done|]. by exists q.
Qed.

(** When every quantity in the cart is an integer of at least 1, it stays
    so under [addToCart], [removeFromCart], [updateQuantity] with an
    integer, and the plus, minus and remove controls of any row rendered
    from a line of the cart. *)
Theorem quantities_stay_positive (st : State) :
  Forall positive_quantity (cart st) →
  (∀ product, Forall positive_quantity (cart (exec (addToCart product) st)))
  ∧ (∀ productId, Forall positive_quantity (cart (exec (removeFromCart productId) st)))
  ∧ (∀ productId q,
       Forall positive_quantity (cart (exec (updateQuantity productId (Int q)) st)))
  ∧ (∀ item r c,
       item ∈ cart st → render_row item = Some r →
       c = MinusButton ∨ c = PlusButton ∨ c = RemoveButton →
       Forall positive_quantity (cart (exec (use_control r c) st))).
Proof.
  intros Hc.
  assert (Hupdate : ∀ productId q,
    Forall positive_quantity (cart (exec (updateQuantity productId (Int q)) st))).
  { intros productId q. rewrite cart_updateQuantity.
    destruct (find_line _ _) as [[i item]|]; [|done].
    apply positive_quantity_insert; [done|]. lia. }
  assert (Hremove : ∀ productId,
    Forall positive_quantity (cart (exec (removeFromCart productId) st))).
  { intros productId. rewrite cart_removeFromCart. apply Forall_forall.
    intros item [_ Hin]%list_elem_of_filter.
    by apply (proj1 (Forall_forall _ _) Hc). }
  split_and!; [|done..|].
  - intros product. rewrite cart_addToCart.
    destruct (find_line _ _) as [[i item]|] eqn:Hfind.
    + apply list_find_Some in Hfind as (Hi & _).
      destruct (Forall_lookup_1 _ _ _ _ Hc Hi) as (q & -> & Hq).
      apply positive_quantity_insert; [done|]. apply binary64_positive. lia.
    + apply Forall_app. split; [done|]. constructor; [|constructor].
      by exists 1.
  - intros item r c Hin Hrow Hcontrol.
    destruct (proj1 (Forall_forall _ _) Hc item Hin) as (q & Hq & _).
    unfold render_row in Hrow. rewrite Hq in Hrow.
    destruct (price item); [done|]. injection Hrow as <-.
    destruct Hcontrol as [->|[->| ->]]; simpl; auto.
Qed.

Lemma quantities_stay_positive_witness :
  Forall positive_quantity (cart (exec (updateQuantity 1 (Int (-7))) two_lines)).
Proof.
  refine (proj1 (proj2 (proj2 (quantities_stay_positive two_lines _))) 1 (-7)).
  repeat constructor; by exists 1.
Defined.

(** ** The plus and minus buttons *)

(** For a line with an integer quantity q from 1 to 2^53 and its rendered
    row. The plus button makes the quantity q + 1 below 2^53 and leaves
    the cart as it is at 2^53, where binary64 has no q + 1; the minus
    button makes the quantity max(1, q - 1) and so leaves a quantity of 1
    alone; both keep the id, the name and the price of the line and the
    other lines. Below 2^53, minus on the row rendered after a plus gives
    the old cart back. *)
Theorem plus_and_minus_buttons (st : State) (i : nat) (item : CartLine) (q : Z) (r : Row) :
  find_line (id item) (cart st) = Some (i, item) →
  quantity item = val (Int q) →
  1 ≤ q ≤ 2 ^ 53 →
  render_row item = Some r →
  let with_quantity n :=
    {| id := id item; name := name item; price := price item;
       quantity := val (Int n) |} in
  let plus := exec (use_control r PlusButton) st in
  let minus := exec (use_control r MinusButton) st in
  (q < 2 ^ 53 → cart plus = <[i := with_quantity (q + 1)]> (cart st))
  ∧ (q = 2 ^ 53 → cart plus = cart st)
  ∧ cart minus = <[i := with_quantity (Z.max 1 (q - 1))]> (cart st)
  ∧ (q = 1 → cart minus = cart st)
  ∧ (q < 2 ^ 53 →
     ∀ r', render_row (with_quantity (q + 1)) = Some r' →
       cart (exec (use_control r' MinusButton) plus) = cart st).
Proof.
  intros Hfind Hq Hpos Hrow with_quantity plus minus.
  pose proof Hfind as (Hi & _ & Hbefore)%list_find_Some.
  assert (Hitem : with_quantity q = item).
  { subst with_quantity. destruct item. simpl in *. by rewrite Hq. }
  unfold render_row in Hrow. rewrite Hq in Hrow.
  destruct (price item) as [|x] eqn:Hprice; [done|]. injection Hrow as <-.
  assert (Hplus : cart plus = <[i := with_quantity (binary64 (q + 1))]> (cart st)).
  { subst plus. simpl. rewrite cart_updateQuantity, Hfind. simpl.
    pose proof (binary64_positive (q + 1)).
    rewrite Z.max_r by lia. unfold set_quantity. by rewrite Hprice. }
  assert (Hminus : cart minus = <[i := with_quantity (Z.max 1 (q - 1))]> (cart st)).
  { subst minus. simpl. rewrite cart_updateQuantity, Hfind. simpl.
    rewrite (binary64_exact (q - 1)) by lia. unfold set_quantity. by rewrite Hprice. }
  split_and!.
  - intros Hlt. by rewrite Hplus, binary64_exact by lia.
  - intros ->. rewrite Hplus.
    change (binary64 (2 ^ 53 + 1)) with (2 ^ 53). rewrite Hitem.
    by apply list_insert_id.
  - done.
  - intros ->. rewrite Hminus.
    change (Z.max 1 (1 - 1)) with 1. rewrite Hitem. by apply list_insert_id.
  - intros Hlt r'. unfold render_row. simpl. intros [= <-]. simpl.
    rewrite cart_updateQuantity, Hplus, binary64_exact by lia.
    assert (Hfind' : find_line (id item) (<[i := with_quantity (q + 1)]> (cart st))
                     = Some (i, with_quantity (q + 1))).
    { apply list_find_Some. split_and!.
      - apply list_lookup_insert_eq. by eapply lookup_lt_Some.
      - done.
      - intros j y Hj Hlt'. rewrite list_lookup_insert_ne in Hj by lia. eauto. }
    rewrite Hfind'. rewrite list_insert_insert_eq. simpl.
    rewrite (binary64_exact (q + 1 - 1)) by lia.
    replace (q + 1 - 1) with q by lia. rewrite Z.max_r by lia.
    change (set_quantity (with_quantity (q + 1)) (val (Int q))) with (with_quantity q).
    rewrite Hitem. by apply list_insert_id.
Qed.

Lemma plus_and_minus_buttons_witness :
  cart (exec (use_control headphones_row PlusButton) one_headphones)
  = <[0%nat := {| id := 1; name := "Wireless Headphones"; price := val 99.99%float;
                  quantity := val (Int 2) |}]> (cart one_headphones).
Proof.
  refine (proj1 (plus_and_minus_buttons one_headphones 0 (new_line headphones) 1
                   headphones_row _ _ _ _) _).
  - vm_compute. reflexivity.
  - reflexivity.
  - vm_compute. split; discriminate.
  - reflexivity.
  - vm_compute. reflexivity.
Defined.

(** ** The view after a mutation *)

Ltac unfold_refresh :=
  unfold exec, updateCartUI, renderCartItems, getCartTotal, modify, get, throw,
    mbind, M_bind, mret, M_ret;
  cbn [dom cart cart_count cart_items cart_total set_dom set_cart_count set_cart_items
       set_cart_total fst snd].

Lemma refresh_shows (st : State) :
  Forall (λ item, price item ≠ null) (cart st) →
  page_shows (dom (exec updateCartUI st)) (cart st).
Proof.
  intros Hpriced. destruct (render_row_priced _ Hpriced) as [rows Hrows].
  destruct st as [c u l s [cc ci ct] e]. simpl in *. unfold page_shows.
  unfold_refresh.
  destruct cc as [b|], ci as [v|], ct as [t|], c as [|item c]; unfold_refresh;
    rewrite ?Hrows; unfold_refresh;
    (split_and!; [intros ? [= <-] || intros ? [=]; try done..]); eauto.
Qed.

Lemma dom_save_refresh_notify (message kind : string) (st : State) :
  dom (snd ((saveCart;; updateCartUI;; showNotification message kind) st))
  = dom (exec updateCartUI (exec saveCart st)).
Proof.
  unfold exec, saveCart, setItem, showNotification, modify, get, mbind, M_bind. simpl.
  by destruct (updateCartUI _) as [[] ?].
Qed.

Lemma dom_save_refresh (st : State) :
  dom (snd ((saveCart;; updateCartUI) st)) = dom (exec updateCartUI (exec saveCart st)).
Proof. reflexivity. Qed.

(** After [addToCart], [removeFromCart], and [updateQuantity] of an id the
    cart has, the page shows the new cart: badge, rows and total are the
    ones of the cart the call leaves, provided every line of that cart
    has a price. *)
Theorem page_shows_cart_after_mutation (st : State) :
  (∀ product,
     let st' := exec (addToCart product) st in
     Forall (λ item, price item ≠ null) (cart st') → page_shows (dom st') (cart st'))
  ∧ (∀ productId,
     let st' := exec (removeFromCart productId) st in
     Forall (λ item, price item ≠ null) (cart st') → page_shows (dom st') (cart st'))
  ∧ (∀ productId q,
     let st' := exec (updateQuantity productId q) st in
     is_Some (find_line productId (cart st)) →
     Forall (λ item, price item ≠ null) (cart st') → page_shows (dom st') (cart st')).
Proof.
  split_and!.
  - intros product st'. subst st'. rewrite cart_addToCart.
    unfold exec at 1. rewrite addToCart_unfold, dom_save_refresh_notify.
    intros Hpriced. by apply (refresh_shows (exec saveCart (set_cart _ st))).
  - intros productId st'. subst st'. rewrite cart_removeFromCart.
    unfold exec at 1. rewrite removeFromCart_unfold, dom_save_refresh_notify.
    intros Hpriced. by apply (refresh_shows (exec saveCart (set_cart _ st))).
  - intros productId q st' [[i item] Hfind]. subst st'. rewrite cart_updateQuantity.
    unfold exec at 1. rewrite updateQuantity_unfold, Hfind, dom_save_refresh.
    intros Hpriced. by apply (refresh_shows (exec saveCart (set_cart _ st))).
Qed.

Lemma units_of_quantities (qs : list Z) :
  Forall (λ q, 1 ≤ q) qs →
  ∀ (c : list CartLine) (a : Z),
    quantity <$> c = (λ q, val (Int q)) <$> qs →
    0 ≤ a → a + foldr Z.add 0 qs ≤ 2 ^ 53 →
    fold_left (λ sum item, num_add sum (ToNumber (quantity item))) c (Int a)
    = Int (a + foldr Z.add 0 qs).
Proof.
  induction 1 as [|q qs Hq Hqs IH]; intros c a Hc Ha Hsum.
  - apply fmap_nil_inv in Hc as ->. simpl. by rewrite Z.add_0_r.
  - destruct c as [|item c]; [done|]. injection Hc as Hitem Hc.
    simpl in *. rewrite Hitem. simpl.
    assert (0 ≤ foldr Z.add 0 qs).
    { clear -Hqs. induction Hqs; simpl; lia. }
    rewrite binary64_exact by lia.
    rewrite IH by (done || lia). f_equal. lia.
Qed.

(** On a page with the badge, when the quantities of the cart are
    integers of at least 1 whose sum is at most 2^53: the refresh writes
    the number of units, which is the sum of the quantities and at least
    the number of lines, into the badge, and shows the badge exactly when
    the cart has a line. *)
Theorem badge_counts_units (st : State) (b : Badge) (qs : list Z) :
  cart_count (dom st) = Some b →
  quantity <$> cart st = (λ q, val (Int q)) <$> qs →
  Forall (λ q, 1 ≤ q) qs →
  foldr Z.add 0 qs ≤ 2 ^ 53 →
  cart_count (dom (exec updateCartUI st))
  = Some {| badge_text := Int (foldr Z.add 0 qs);
            badge_shown := bool_decide (cart st ≠ []) |}
  ∧ Z.of_nat (length (cart st)) ≤ foldr Z.add 0 qs.
Proof.
  intros Hbadge Hqs Hpos Hbound.
  pose proof (units_of_quantities qs Hpos (cart st) 0 Hqs) as Hn.
  rewrite Z.add_0_l in Hn. specialize (Hn ltac:(lia) Hbound).
  assert (Hle : Z.of_nat (length (cart st)) ≤ foldr Z.add 0 qs).
  { rewrite <- (length_fmap quantity), Hqs, length_fmap.
    clear -Hpos. induction Hpos; simpl; [done|]. rewrite Nat2Z.inj_succ. lia. }
  split; [|done]. set (n := foldr Z.add 0 qs) in *. clearbody n. clear Hqs Hpos Hbound.
  destruct st as [c u l s [cc ci ct] e]. simpl in *. subst cc.
  unfold_refresh.
  assert (Hshown : num_gt (Int n) (Int 0) = bool_decide (c ≠ [])).
  { unfold num_gt. destruct c as [|item c].
    - injection Hn as <-. done.
    - rewrite bool_decide_eq_true_2 by done. apply Z.ltb_lt.
      rewrite length_cons in Hle. lia. }
  destruct ci as [v|], ct as [t|], c as [|item c]; unfold_refresh;
    rewrite ?Hn, ?Hshown; try reflexivity.
  all: destruct (mapM render_row (item :: c)); unfold_refresh; by rewrite ?Hn, ?Hshown.
Qed.

Lemma badge_counts_units_witness :
  cart_count (dom (exec updateCartUI
                     (exec (updateQuantity 1 (Int 3)) two_lines)))
  = Some {| badge_text := Int 4; badge_shown := true |}.
Proof.
  refine (proj1 (badge_counts_units (exec (updateQuantity 1 (Int 3)) two_lines)
                   {| badge_text := Int 4; badge_shown := true |} [3; 1] _ _ _ _)).
  - reflexivity.
  - reflexivity.
  - repeat constructor; lia.
  - vm_compute. discriminate.
Defined.

(** ** A line without a price *)

Lemma render_row_null (c : list CartLine) :
  Exists (λ item, price item = null) c → mapM render_row c = None.
Proof.
  intros Hnull. apply eq_None_not_Some. intros Hsome%mapM_is_Some.
  apply Exists_exists in Hnull as (item & Hin & Hprice).
  destruct (proj1 (Forall_forall _ _) Hsome item Hin) as [r Hr].
  unfold render_row in Hr. by rewrite Hprice in Hr.
Qed.

Lemma refresh_throws (st : State) (v : ItemsView) :
  cart_items (dom st) = Some v →
  Exists (λ item, price item = null) (cart st) →
  ∃ st', updateCartUI st = (Throw TypeError, st')
    ∧ cart_items (dom st') = Some v
    ∧ cart_total (dom st') = cart_total (dom st).
Proof.
  intros Hitems Hnull. pose proof (render_row_null _ Hnull) as Hrows.
  destruct st as [c u l s [cc ci ct] e]. simpl in *. subst ci.
  destruct c as [|item c]; [by apply Exists_nil in Hnull|].
  unfold_refresh.
  destruct cc as [b|]; unfold_refresh; rewrite Hrows; by eexists.
Qed.

(** When the page has the [.cart-items] element and the cart that
    [addToCart] leaves holds a line whose price is [null], the call throws
    a TypeError from [renderCartItems]: the cart is changed and saved, but
    no notification is shown and the rows and the total on the page stay
    as they were. *)
Theorem addToCart_throws_on_null_price (st : State) (product : Product) (v : ItemsView) :
  cart_items (dom st) = Some v →
  Exists (λ item, price item = null) (cart (exec (addToCart product) st)) →
  let st' := exec (addToCart product) st in
  fst (addToCart product st) = Throw TypeError
  ∧ effects st' = effects st ++ [SetItem "cart" (JSON_stringify (JLines (cart st')))]
  ∧ localStorage st' !! "cart" = Some (JSON_stringify (JLines (cart st')))
  ∧ cart_items (dom st') = Some v
  ∧ cart_total (dom st') = cart_total (dom st).
Proof.
  intros Hitems Hnull st'. subst st'. rewrite storage_addToCart, lookup_insert_eq.
  revert Hnull. rewrite cart_addToCart. unfold exec. rewrite addToCart_unfold.
  set (c' := match find_line _ _ with Some _ => _ | None => _ end). intros Hnull.
  unfold saveCart, setItem, showNotification, modify, get, mbind, M_bind. simpl.
  match goal with |- context [updateCartUI ?s] =>
    destruct (updateCartUI_dom_only s) as (r & d & Hframe);
    destruct (refresh_throws s v Hitems Hnull) as (st' & Hrun & Hv & Ht)
  end.
  rewrite Hrun in Hframe. injection Hframe as <- ->. rewrite Hrun.
  simpl in *. by split_and!.
Qed.

Lemma addToCart_throws_on_null_price_witness :
  fst (addToCart headphones unpriced_visit) = Throw TypeError.
Proof.
  refine (proj1 (addToCart_throws_on_null_price unpriced_visit headphones
                   EmptyCartMessage _ _)).
  - reflexivity.
  - vm_compute. by left.
Defined.

(** A product whose price is NaN or infinite is added and shown like any
    other, but [saveCart] writes [null] for its price: the next page load
    starts with a line that has no price, and on a page with the
    [.cart-items] element the refresh that the [DOMContentLoaded] handler
    begins with throws a TypeError. *)
Theorem unreadable_price_breaks_next_load (st : State) (product : Product)
    (page : Dom) (v : ItemsView) :
  find_line (pid product) (cart st) = None →
  is_amount (pprice product) = false →
  classify (pprice product) ≠ NNormal →
  classify (pprice product) ≠ NSubn →
  cart_items page = Some v →
  ∃ st0,
    AppState_init (localStorage (exec (addToCart product) st)) page = Started st0
    ∧ cart st0 = (stringify_line <$> cart st) ++ [set_quantity
        {| id := pid product; name := pname product; price := null; quantity := null |}
        (val (Int 1))]
    ∧ fst (updateCartUI st0) = Throw TypeError.
Proof.
  intros Hfind Hamount Hnn Hns Hitems.
  assert (Hstored : localStorage (exec (addToCart product) st) !! "cart"
                    = Some (JSON_stringify (JLines (cart st ++ [new_line product])))).
  { by rewrite storage_addToCart, lookup_insert_eq, cart_addToCart, Hfind. }
  rewrite (AppState_init_saved _ _ page Hstored). eexists. split; [done|].
  assert (Hline : stringify_line (new_line product)
                  = set_quantity {| id := pid product; name := pname product;
                                    price := null; quantity := null |} (val (Int 1))).
  { unfold stringify_line, new_line, set_quantity, stringify_price. simpl.
    unfold is_amount in Hamount. by destruct (classify (pprice product)). }
  simpl. rewrite fmap_app. simpl. rewrite Hline. split; [done|].
  match goal with |- fst (updateCartUI ?s) = _ =>
    destruct (refresh_throws s v Hitems) as (st' & -> & _); [|done] end.
  simpl. apply Exists_app. right. by left.
Qed.

Lemma unreadable_price_breaks_next_load_witness :
  ∃ st0,
    AppState_init (localStorage (exec (addToCart unpriced) first_visit)) cart_page
    = Started st0
    ∧ cart st0 = (stringify_line <$> cart first_visit) ++ [set_quantity
        {| id := 9; name := "Gift Card"; price := null; quantity := null |}
        (val (Int 1))]
    ∧ fst (updateCartUI st0) = Throw TypeError.
Proof.
  apply (unreadable_price_breaks_next_load first_visit unpriced cart_page EmptyCartMessage);
    vm_compute; (reflexivity || discriminate).
Defined.

(** ** A quantity that is not a number *)

Lemma Prim2SF_nan : Prim2SF nan = S754_nan.
Proof. reflexivity. Qed.

Lemma float_add_nan_r (x : float) : (x + nan)%float = nan.
Proof.
  apply Prim2SF_inj. rewrite add_spec, Prim2SF_nan.
  by destruct (Prim2SF x).
Qed.

Lemma float_add_nan_l (x : float) : (nan + x)%float = nan.
Proof. apply Prim2SF_inj. by rewrite add_spec, Prim2SF_nan. Qed.

Lemma float_mul_nan_r (x : float) : (x * nan)%float = nan.
Proof.
  apply Prim2SF_inj. rewrite mul_spec, Prim2SF_nan.
  by destruct (Prim2SF x).
Qed.

Lemma total_from_nan (c : list CartLine) :
  fold_left (λ total item, (total + line_amount item)%float) c nan = nan.
Proof.
  induction c as [|item c IH]; [done|]. simpl. by rewrite float_add_nan_l.
Qed.

Lemma units_from_NaN (c : list CartLine) :
  fold_left (λ sum item, num_add sum (ToNumber (quantity item))) c NaN = NaN.
Proof. by induction c. Qed.

Lemma total_with_NaN (c : list CartLine) :
  Exists (λ item, quantity item = val NaN) c →
  ∀ x, fold_left (λ total item, (total + line_amount item)%float) c x = nan.
Proof.
  induction 1 as [item c Hq|item c _ IH]; intros x; simpl.
  - unfold line_amount. rewrite Hq. simpl.
    by rewrite float_mul_nan_r, float_add_nan_r, total_from_nan.
  - apply IH.
Qed.

Lemma units_with_NaN (c : list CartLine) :
  Exists (λ item, quantity item = val NaN) c →
  ∀ n, fold_left (λ sum item, num_add sum (ToNumber (quantity item))) c n = NaN.
Proof.
  induction 1 as [item c Hq|item c _ IH]; intros n; simpl.
  - rewrite Hq. simpl. replace (num_add n NaN) with NaN by (by destruct n).
    apply units_from_NaN.
  - apply IH.
Qed.

(** As soon as one line has the quantity NaN, whatever its price and the
    other lines, [getCartTotal()] is NaN, and a refresh on a page with the
    badge writes NaN into the badge and hides it. *)
Theorem NaN_quantity_spoils_total (st : State) (b : Badge) :
  Exists (λ item, quantity item = val NaN) (cart st) →
  fst (getCartTotal st) = Ret nan
  ∧ (cart_count (dom st) = Some b →
     cart_count (dom (exec updateCartUI st))
     = Some {| badge_text := NaN; badge_shown := false |}).
Proof.
  intros Hnan.
  pose proof (total_with_NaN _ Hnan) as Htotal.
  pose proof (units_with_NaN _ Hnan) as Hunits.
  split.
  - by rewrite getCartTotal_run, Htotal.
  - intros Hbadge. destruct st as [c u l s [cc ci ct] e]. simpl in *. subst cc.
    unfold_refresh.
    destruct ci as [v|], ct as [t|], c as [|item c]; unfold_refresh;
      rewrite ?Hunits; try reflexivity.
    all: destruct (mapM render_row (item :: c)); unfold_refresh; by rewrite ?Hunits.
Qed.

Lemma NaN_quantity_spoils_total_witness :
  fst (getCartTotal (exec (use_control headphones_row (QuantityInput "abc")) two_lines))
  = Ret nan.
Proof.
  refine (proj1 (NaN_quantity_spoils_total
                   (exec (use_control headphones_row (QuantityInput "abc")) two_lines)
                   {| badge_text := Int 0; badge_shown := false |} _)).
  vm_compute. by left.
Defined.

(** * The submit listener *)

(** The listener never throws and shows exactly one notification per
    submission: the validation message when the form is not valid, the
    failure's message when the request fails, the success message
    otherwise. *)
Theorem submit_notifies_once (valid : bool) (form : submission) (st : State) :
  fst (submit valid form st) = Ret tt
  ∧ notifications (effects (exec (submit valid form) st))
    = notifications (effects st)
      ++ [if valid then
            match failure_of form with
            | Some message => (message, "error")
            | None => ("Form submitted successfully!", "success")
            end
          else ("Please fix the errors in the form", "error")].
Proof.
  unfold notifications.
  destruct valid; [|unfold exec; simpl; by rewrite omap_app].
  destruct form as [[r|m]|[r|m]|[r|m]|[r|m]|[r|m]|]; unfold exec; simpl;
    (split; [done|]); rewrite <- ?(assoc_L (++)); by rewrite omap_app.
Qed.

(** A submission that is not valid, or whose request fails, changes
    nothing but the list of effects: cart, session, store and page are as
    before, and nothing is written or scheduled. *)
Theorem failed_submission_changes_nothing (valid : bool) (form : submission) (st : State) :
  valid = false ∨ is_Some (failure_of form) →
  let st' := exec (submit valid form) st in
  cart st' = cart st ∧ user st' = user st ∧ isLoggedIn st' = isLoggedIn st
  ∧ localStorage st' = localStorage st ∧ dom st' = dom st
  ∧ Forall (λ e, match e with SetItem _ _ | Redirect _ => False | _ => True end)
      (drop (length (effects st)) (effects st')).
Proof.
  intros Hfail st'. subst st'.
  destruct valid.
  - destruct Hfail as [|[m Hm]]; [done|].
    destruct form as [[r|m']|[r|m']|[r|m']|[r|m']|[r|m']|]; try discriminate;
      unfold exec; simpl; split_and!; try done;
      rewrite <- ?(assoc_L (++)), drop_app_length; by repeat constructor.
  - unfold exec. simpl. split_and!; try done.
    rewrite drop_app_length. by repeat constructor.
Qed.

Lemma failed_submission_changes_nothing_witness :
  cart (exec (submit true (Checkout (Failed "Card declined"))) two_lines) = cart two_lines.
Proof.
  refine (proj1 (failed_submission_changes_nothing true (Checkout (Failed "Card declined"))
                   two_lines _)).
  right. by eexists.
Defined.

(** No submission touches the three cart elements of the page, and only a
    checkout whose request succeeds changes the cart: after it the cart is
    empty while the page still shows what it showed before. *)
Theorem submit_leaves_page (valid : bool) (form : submission) (st : State) :
  let st' := exec (submit valid form) st in
  dom st' = dom st
  ∧ (cart st' = cart st
     ∨ ∃ orderResult, valid = true ∧ form = Checkout (Ok orderResult) ∧ cart st' = []).
Proof.
  destruct valid; [|by split; [|left]].
  destruct form as [[r|m]|[r|m]|[r|m]|[r|m]|[r|m]|];
    (split; [done|]); try (by left).
  right. by exists r.
Qed.

(** A login that succeeds stores the token and marks the session as
    logged in, but the mark does not outlive the page: the next page load
    (which starts, when the state before the login is a reachable one)
    begins with [isLoggedIn] false and no user, while the token is still
    in the store. *)
Theorem login_mark_is_lost_on_reload (r : LoginResult) (st : State) (page : Dom) :
  let st1 := exec (submit true (Login (Ok r))) st in
  isLoggedIn st1 = true
  ∧ user st1 = Some (login_user r)
  ∧ localStorage st1 !! "authToken" = Some (token r)
  ∧ (reachable st → ∃ st2, page_load (localStorage st1) page = Started st2)
  ∧ ∀ st2, page_load (localStorage st1) page = Started st2 →
      isLoggedIn st2 = false ∧ user st2 = None
      ∧ localStorage st2 !! "authToken" = Some (token r).
Proof.
  intros st1. subst st1.
  split_and!; [by unfold exec; simpl; rewrite ?lookup_insert_eq..| |].
  { intros Hst. apply reachable_page_load_starts.
    eapply reachable_step; [done|apply step_submit]. }
  assert (Hstored : localStorage (exec (submit true (Login (Ok r))) st) !! "authToken"
                    = Some (token r)).
  { unfold exec. simpl. by rewrite lookup_insert_eq. }
  revert Hstored. generalize (localStorage (exec (submit true (Login (Ok r))) st)).
  intros storage Hstored st2. unfold page_load.
  destruct (AppState_init _ page) as [st0| |] eqn:Hinit; try discriminate.
  intros [= <-]. unfold exec at 1 2 3. refresh_frame o d.
  revert Hinit. unfold AppState_init. destruct (hydrate _) as [[]|]; try discriminate.
  by intros [= <-].
Qed.

(** * The form validator *)

(** ** The matcher decides the patterns *)

Lemma lang_eps_inv (s : list ascii) : lang Eps s → s = [].
Proof. by inversion 1. Qed.

Lemma lang_chars_inv (p : ascii → bool) (s : list ascii) :
  lang (Chars p) s → ∃ c, s = [c] ∧ p c = true.
Proof. inversion 1; subst. by eexists. Qed.

Lemma lang_seq_inv (r1 r2 : regex) (s : list ascii) :
  lang (Seq r1 r2) s → ∃ s1 s2, s = s1 ++ s2 ∧ lang r1 s1 ∧ lang r2 s2.
Proof. inversion 1; subst. by eexists _, _. Qed.

Lemma lang_alt_inv (r1 r2 : regex) (s : list ascii) :
  lang (Alt r1 r2) s → lang r1 s ∨ lang r2 s.
Proof. inversion 1; subst; auto. Qed.

Lemma lang_both_inv (r1 r2 : regex) (s : list ascii) :
  lang (Both r1 r2) s → lang r1 s ∧ lang r2 s.
Proof. inversion 1; subst; auto. Qed.

Lemma matches_empty_spec (r : regex) : matches_empty r = true ↔ lang r [].
Proof.
  induction r as [| |p|r1 IH1 r2 IH2|r1 IH1 r2 IH2|r IH|r1 IH1 r2 IH2]; simpl.
  - split; [done|inversion 1].
  - split; [constructor|done].
  - split; [done|]. by intros (c & ? & _)%lang_chars_inv.
  - rewrite andb_true_iff, IH1, IH2. split.
    + intros [H1 H2]. by apply (lang_seq r1 r2 [] []).
    + intros (s1 & s2 & Hs & H1 & H2)%lang_seq_inv.
      symmetry in Hs. apply app_eq_nil in Hs as [-> ->]. done.
  - rewrite orb_true_iff, IH1, IH2. split.
    + intros [H|H]; by constructor.
    + apply lang_alt_inv.
  - split; [constructor|done].
  - rewrite andb_true_iff, IH1, IH2. split.
    + intros [H1 H2]. by constructor.
    + apply lang_both_inv.
Qed.

(** A match of [r*] that starts with [c] starts with a match of [r] that
    starts with [c]. *)
Lemma lang_star_cons (r : regex) (c : ascii) (s : list ascii) :
  lang (Star r) (c :: s) →
  ∃ s1 s2, s = s1 ++ s2 ∧ lang r (c :: s1) ∧ lang (Star r) s2.
Proof.
  intros H. remember (Star r) as r' eqn:Hr. remember (c :: s) as s' eqn:Hs.
  revert s Hs. induction H as [| | | | | |r0 s1 s2 H1 _ H2 IH|]; try discriminate.
  injection Hr as ->. intros s Hs. destruct s1 as [|c1 s1].
  - by apply IH.
  - injection Hs as -> <-. by exists s1, s2.
Qed.

Lemma deriv_spec (c : ascii) (r : regex) (s : list ascii) :
  lang (deriv c r) s ↔ lang r (c :: s).
Proof.
  revert s.
  induction r as [| |p|r1 IH1 r2 IH2|r1 IH1 r2 IH2|r IH|r1 IH1 r2 IH2];
    intros s; simpl.
  - split; inversion 1.
  - split; inversion 1.
  - destruct (p c) eqn:Hp; split.
    + intros ->%lang_eps_inv. by constructor.
    + intros (c' & [= <- ->] & _)%lang_chars_inv. constructor.
    + inversion 1.
    + intros (c' & [= <- ->] & Hc)%lang_chars_inv. congruence.
  - assert (Hhead : lang (Seq (deriv c r1) r2) s
                    ↔ ∃ s1 s2, s = s1 ++ s2 ∧ lang r1 (c :: s1) ∧ lang r2 s2).
    { split.
      - intros (s1 & s2 & -> & H1%IH1 & H2)%lang_seq_inv. by exists s1, s2.
      - intros (s1 & s2 & -> & H1%IH1 & H2). by constructor. }
    assert (Hsplit : lang (Seq r1 r2) (c :: s)
                     ↔ (∃ s1 s2, s = s1 ++ s2 ∧ lang r1 (c :: s1) ∧ lang r2 s2)
                       ∨ (lang r1 [] ∧ lang r2 (c :: s))).
    { split.
      - intros (s1 & s2 & Hs & H1 & H2)%lang_seq_inv. destruct s1 as [|c1 s1].
        + right. simpl in Hs. by subst.
        + left. injection Hs as <- ->. by exists s1, s2.
      - intros [(s1 & s2 & -> & H1 & H2)|[H1 H2]].
        + by apply (lang_seq r1 r2 (c :: s1) s2).
        + by apply (lang_seq r1 r2 [] (c :: s)). }
    rewrite Hsplit. destruct (matches_empty r1) eqn:Hempty.
    + apply matches_empty_spec in Hempty. split.
      * intros [H%Hhead|H%IH2]%lang_alt_inv; auto.
      * intros [H|[_ H]]; [apply lang_alt_l, Hhead|apply lang_alt_r, IH2]; done.
    + rewrite Hhead. split; [auto|]. intros [H|[H%matches_empty_spec _]]; [done|].
      congruence.
  - split.
    + intros [H%IH1|H%IH2]%lang_alt_inv; by constructor.
    + intros [H|H]%lang_alt_inv; [apply lang_alt_l, IH1|apply lang_alt_r, IH2]; done.
  - split.
    + intros (s1 & s2 & -> & H1%IH & H2)%lang_seq_inv.
      by apply (lang_star_app r (c :: s1) s2).
    + intros (s1 & s2 & -> & H1 & H2)%lang_star_cons. constructor; [by apply IH|done].
  - split.
    + intros [H1%IH1 H2%IH2]%lang_both_inv. by constructor.
    + intros [H1 H2]%lang_both_inv. constructor; [by apply IH1|by apply IH2].
Qed.

Lemma accepts_spec (r : regex) (s : list ascii) : accepts r s = true ↔ lang r s.
Proof.
  revert r. induction s as [|c s IH]; intros r; simpl.
  - apply matches_empty_spec.
  - by rewrite IH, deriv_spec.
Qed.

(** ** What the patterns match *)

Lemma lang_star_chars (p : ascii → bool) (s : list ascii) :
  lang (Star (Chars p)) s ↔ Forall (λ c, p c = true) s.
Proof.
  split.
  - induction s as [|c s IH]; [constructor|].
    intros (s1 & s2 & -> & (c' & [= <- ->] & Hc)%lang_chars_inv & H2)%lang_star_cons.
    constructor; [done|]. by apply IH.
  - induction 1 as [|c s Hc _ IH]; [constructor|].
    apply (lang_star_app _ [c] s); [by constructor|done].
Qed.

Lemma lang_at_least_chars (n : nat) (p : ascii → bool) (s : list ascii) :
  lang (at_least n (Chars p)) s ↔ (n ≤ length s)%nat ∧ Forall (λ c, p c = true) s.
Proof.
  revert s. induction n as [|n IH]; intros s; simpl.
  - rewrite lang_star_chars. split; [intros; split; [lia|done]|by intros [_ ?]].
  - split.
    + intros (s1 & s2 & -> & (c & -> & Hc)%lang_chars_inv & [Hn H2]%IH)%lang_seq_inv.
      simpl. split; [lia|by constructor].
    + intros [Hn Hs]. destruct Hs as [|c s Hc Hs]; [simpl in Hn; lia|].
      apply (lang_seq _ _ [c] s); [by constructor|]. apply IH. simpl in Hn.
      split; [lia|done].
Qed.

(** [(?=.*p)]: somewhere, after no line end, there is a character of the
    class. *)
Lemma lang_lookahead_class (p : ascii → bool) (rest : regex) (s : list ascii) :
  lang (lookahead (Seq (Star (Chars is_dot)) (Chars p)) rest) s
  ↔ (∃ before c after, s = before ++ c :: after
       ∧ Forall (λ c, is_dot c = true) before ∧ p c = true)
    ∧ lang rest s.
Proof.
  unfold lookahead. split.
  - intros [(s1 & after & -> & (before & s2 & -> & Hbefore%lang_star_chars
              & (c & -> & Hc)%lang_chars_inv)%lang_seq_inv & _)%lang_seq_inv Hrest]
      %lang_both_inv.
    split; [|done]. exists before, c, after. by rewrite <- (assoc_L (++)).
  - intros [(before & c & after & -> & Hbefore & Hc) Hrest]. constructor; [|done].
    replace (before ++ c :: after) with ((before ++ [c]) ++ after)
      by (by rewrite <- (assoc_L (++))).
    constructor.
    + constructor; [by apply lang_star_chars|by constructor].
    + apply lang_star_chars, Forall_forall. done.
Qed.

Lemma length_list_ascii_of_string (s : string) :
  length (list_ascii_of_string s) = String.length s.
Proof. induction s as [|c s IH]; simpl; by rewrite ?IH. Qed.

Lemma list_ascii_of_string_nil (s : string) :
  list_ascii_of_string s = [] ↔ s = "".
Proof. by destruct s. Qed.

(** ** validate, field by field *)

Lemma eqb_char (c d : ascii) : Ascii.eqb c d = true ↔ d = c.
Proof. rewrite Ascii.eqb_eq. split; congruence. Qed.

Lemma lang_email (s : list ascii) : lang rules_email s ↔ address_shape s.
Proof.
  unfold rules_email, address_shape. split.
  - intros (l & s1 & -> & [Hl Hlc]%lang_at_least_chars
            & (at' & s2 & -> & (c1 & -> & Hc1%eqb_char)%lang_chars_inv
            & (a & s3 & -> & [Ha Hac]%lang_at_least_chars
            & (dot & b & -> & (c2 & -> & Hc2%eqb_char)%lang_chars_inv
            & [Hb Hbc]%lang_at_least_chars)%lang_seq_inv)%lang_seq_inv)%lang_seq_inv)
          %lang_seq_inv.
    subst. exists l, a, b.
    split_and!; [done|intros ->; simpl in *; lia..|].
    by rewrite !Forall_app.
  - intros (l & a & b & -> & Hl & Ha & Hb & Hall).
    rewrite !Forall_app in Hall. destruct Hall as (Hlc & Hac & Hbc).
    assert (Hlen : ∀ x : list ascii, x ≠ [] → (1 ≤ length x)%nat).
    { intros [|? ?] ?; simpl; [done|lia]. }
    apply (lang_seq _ _ l); [by apply lang_at_least_chars; auto|].
    apply (lang_seq _ _ ["@"%char]); [by constructor|].
    replace (a ++ "."%char :: b) with (a ++ ["."%char] ++ b) by done.
    apply lang_seq; [by apply lang_at_least_chars; auto|].
    apply lang_seq; [by constructor|]. by apply lang_at_least_chars; auto.
Qed.

Lemma RegExp_test_spec (r : regex) (value : string) :
  RegExp_test r value = true ↔ lang r (list_ascii_of_string value).
Proof. apply accepts_spec. Qed.

Lemma RegExp_test_false (r : regex) (value : string) :
  RegExp_test r value = false ↔ ¬ lang r (list_ascii_of_string value).
Proof. rewrite <- RegExp_test_spec. by destruct (RegExp_test r value). Qed.

Lemma value_not_empty (value : string) : value ≠ "" → String.eqb value "" = false.
Proof. by apply String.eqb_neq. Qed.

(** [validate('email', value)] has no error exactly when the value is a
    local part, an [@] and a domain with a dot inside it, none of the
    three parts empty and none holding white space or another [@]; the
    empty value is reported as required, any other as an invalid format. *)
Theorem validate_email (password : option string) (value : string) :
  (validate password "email" value = [] ↔ address_shape (list_ascii_of_string value))
  ∧ (value = "" → validate password "email" value = ["Email is required"])
  ∧ (value ≠ "" → ¬ address_shape (list_ascii_of_string value) →
     validate password "email" value = ["Invalid email format"]).
Proof.
  unfold validate. simpl. rewrite <- lang_email.
  destruct (String.eqb_spec value "") as [->|Hvalue].
  - split_and!; [|done..]. split; [done|].
    intros (l & a & b & Hs & Hl & _)%lang_email. by destruct l.
  - destruct (RegExp_test rules_email value) eqn:Htest; simpl.
    + apply RegExp_test_spec in Htest. by split_and!.
    + apply RegExp_test_false in Htest. by split_and!.
Qed.

Lemma password_char_is_dot (c : ascii) :
  is_password_char c = true → is_dot c = true.
Proof. destruct c as [[] [] [] [] [] [] [] []]; vm_compute; done. Qed.

Lemma lang_password (s : list ascii) :
  lang rules_password s
  ↔ (8 ≤ length s)%nat
    ∧ Forall (λ c, is_password_char c = true) s
    ∧ Exists (λ c, is_lower c = true) s
    ∧ Exists (λ c, is_upper c = true) s
    ∧ Exists (λ c, is_digit c = true) s.
Proof.
  unfold rules_password. rewrite !lang_lookahead_class, lang_at_least_chars.
  assert (Hsome : ∀ p : ascii → bool,
    Forall (λ c, is_password_char c = true) s →
    (∃ before c after, s = before ++ c :: after
       ∧ Forall (λ c, is_dot c = true) before ∧ p c = true)
    ↔ Exists (λ c, p c = true) s).
  { intros p Hs. split.
    - intros (before & c & after & -> & _ & Hc). apply Exists_app. right. by left.
    - intros (c & (before & after & ->)%list_elem_of_split & Hc)%Exists_exists.
      exists before, c, after. split_and!; [done| |done].
      apply Forall_app in Hs as [Hbefore _].
      eapply Forall_impl; [exact Hbefore|]. apply password_char_is_dot. }
  split.
  - intros (Hl & Hu & Hd & Hlen & Hs). split_and!; [done..| | |]; by apply Hsome.
  - intros (Hlen & Hs & Hl & Hu & Hd). split_and!; [by apply Hsome..|done|done].
Qed.

(** [validate('password', value)] has no error exactly when the value has
    at least 8 characters, all of them letters, digits or one of
    [@$!%*?&], and among them a lower-case letter, an upper-case letter
    and a digit. The empty value is reported as required and a shorter
    one as too short; every other value, also one that has the three
    kinds of character but one character outside the allowed ones, gets
    the message about uppercase, lowercase and number. *)
Theorem validate_password (password : option string) (value : string) :
  let s := list_ascii_of_string value in
  let strong :=
    (8 ≤ length s)%nat
    ∧ Forall (λ c, is_password_char c = true) s
    ∧ Exists (λ c, is_lower c = true) s
    ∧ Exists (λ c, is_upper c = true) s
    ∧ Exists (λ c, is_digit c = true) s in
  (validate password "password" value = [] ↔ strong)
  ∧ (value = "" → validate password "password" value = ["Password is required"])
  ∧ (value ≠ "" → (length s < 8)%nat →
     validate password "password" value = ["Password must be at least 8 characters"])
  ∧ (¬ strong → (8 ≤ length s)%nat →
     validate password "password" value
     = ["Password must contain uppercase, lowercase, and number"]).
Proof.
  intros s strong. subst s strong. unfold validate. simpl.
  rewrite <- lang_password, length_list_ascii_of_string.
  destruct (String.eqb_spec value "") as [->|Hvalue].
  - split_and!; [|done|done|]; [split; [done|]|];
      rewrite lang_password; simpl; intros; lia.
  - destruct (Nat.ltb_spec (String.length value) 8) as [Hshort|Hlong].
    + split_and!; [|done|done|intros; lia]. split; [done|].
      rewrite lang_password, length_list_ascii_of_string. lia.
    + destruct (RegExp_test rules_password value) eqn:Htest; simpl.
      * apply RegExp_test_spec in Htest. split_and!; [done|done|intros; lia|done].
      * apply RegExp_test_false in Htest. split_and!; [done|done|intros; lia|done].
Qed.

(** [validate('name', value)] has no error exactly when the value has at
    least 2 characters, each a letter or white space (so two blanks pass,
    and a name with an apostrophe, a hyphen or a digit does not). *)
Theorem validate_name (password : option string) (value : string) :
  let s := list_ascii_of_string value in
  let plain := (2 ≤ length s)%nat ∧ Forall (λ c, is_name_char c = true) s in
  (validate password "name" value = [] ↔ plain)
  ∧ (value = "" → validate password "name" value = ["Name is required"])
  ∧ (value ≠ "" → ¬ plain → validate password "name" value = ["Invalid name format"]).
Proof.
  intros s plain. subst s plain. unfold validate. simpl.
  rewrite <- (lang_at_least_chars 2). fold rules_name.
  destruct (String.eqb_spec value "") as [->|Hvalue].
  - split_and!; [|done..]. split; [done|].
    intros [Hlen _]%lang_at_least_chars. simpl in Hlen. lia.
  - destruct (RegExp_test rules_name value) eqn:Htest; simpl.
    + apply RegExp_test_spec in Htest. by split_and!.
    + apply RegExp_test_false in Htest. by split_and!.
Qed.

Lemma lang_phone (s : list ascii) :
  lang rules_phone s
  ↔ ∃ rest, (s = rest ∨ s = "+"%char :: rest)
      ∧ (10 ≤ length rest)%nat ∧ Forall (λ c, is_phone_char c = true) rest.
Proof.
  unfold rules_phone, optional. split.
  - intros (s1 & rest & -> & Hplus%lang_alt_inv & Hrest%lang_at_least_chars)%lang_seq_inv.
    exists rest. split; [|done].
    destruct Hplus as [(c & -> & Hc%eqb_char)%lang_chars_inv| ->%lang_eps_inv].
    + subst. by right.
    + by left.
  - intros (rest & [->| ->] & Hrest%lang_at_least_chars).
    + apply (lang_seq _ _ [] rest); [|done]. apply lang_alt_r. constructor.
    + apply (lang_seq _ _ ["+"%char] rest); [|done]. apply lang_alt_l. by constructor.
Qed.

(** The phone number is optional: [validate('phone', value)] has no error
    exactly when the value is empty or is, after at most one leading
    [+], a run of at least 10 digits, blanks, hyphens and parentheses (no
    digit is required among them). *)
Theorem validate_phone (password : option string) (value : string) :
  let s := list_ascii_of_string value in
  let dialable :=
    ∃ rest, (s = rest ∨ s = "+"%char :: rest)
      ∧ (10 ≤ length rest)%nat ∧ Forall (λ c, is_phone_char c = true) rest in
  (validate password "phone" value = [] ↔ value = "" ∨ dialable)
  ∧ (value ≠ "" → ¬ dialable → validate password "phone" value = ["Invalid phone format"]).
Proof.
  intros s dialable. subst s dialable. unfold validate. simpl. rewrite <- lang_phone.
  destruct (String.eqb_spec value "") as [->|Hvalue]; simpl.
  - split; [|done]. split; auto.
  - destruct (RegExp_test rules_phone value) eqn:Htest; simpl.
    + apply RegExp_test_spec in Htest. split; [|done]. split; auto.
    + apply RegExp_test_false in Htest. split; [|done]. split; [done|].
      by intros [|].
Qed.

(** [validate('confirmPassword', value)] has no error exactly when the
    value is not empty and is the value of the document's password input;
    without such an input every non-empty value is reported as not
    matching. *)
Theorem validate_confirmPassword (password : option string) (value : string) :
  (validate password "confirmPassword" value = [] ↔ value ≠ "" ∧ password = Some value)
  ∧ (value = "" → validate password "confirmPassword" value = ["Please confirm password"])
  ∧ (value ≠ "" → password ≠ Some value →
     validate password "confirmPassword" value = ["Passwords do not match"]).
Proof.
  unfold validate. simpl.
  destruct (String.eqb_spec value "") as [->|Hvalue].
  - split_and!; [|done..]. split; [done|]. by intros [].
  - destruct (decide (Some value = password)) as [<-|Hne].
    + rewrite bool_decide_eq_true_2 by done. by split_and!.
    + rewrite bool_decide_eq_false_2 by done. simpl. split_and!; [|done..].
      split; [done|]. intros [_ Heq]. by destruct Hne.
Qed.

(** [validate] reports at most one error, and none at all for a field
    whose name is not one of the five it knows, whatever the value. *)
Theorem validate_other_fields (password : option string) (field value : string) :
  (length (validate password field value) ≤ 1)%nat
  ∧ (field ∉ ["email"; "password"; "confirmPassword"; "name"; "phone"] →
     validate password field value = []).
Proof.
  unfold validate. split.
  - repeat case_match; simpl; lia.
  - intros Hfield.
    assert (Hne : ∀ known,
      known ∈ ["email"; "password"; "confirmPassword"; "name"; "phone"] →
      String.eqb field known = false).
    { intros known Hknown. apply String.eqb_neq. by intros ->. }
    by rewrite !Hne by set_solver.
Qed.

(** ** validateForm and the blur listener *)

Section validation.
Variable password : option string.

(** What validation makes of one input, and of the error elements. *)
Let mark (input : Input) : Input :=
  {| input_name := input_name input; input_value := input_value input;
     input_validated := input_validated input;
     input_error_class :=
       bool_decide (validate password (input_name input) (input_value input) ≠ []);
     input_error_element := input_error_element input |}.

Let show (input : Input) (errors : gmap nat ErrorElement) : gmap nat ErrorElement :=
  match input_error_element input with
  | Some k =>
      match validate password (input_name input) (input_value input) with
      | first :: _ => alter (λ _, {| error_text := first; error_shown := true |}) k errors
      | [] => alter (λ e, {| error_text := error_text e; error_shown := false |}) k errors
      end
  | None => errors
  end.

Let selected (input : Input) : Input :=
  if input_validated input then mark input else input.

Let shown (errors : gmap nat ErrorElement) (input : Input) : gmap nat ErrorElement :=
  if input_validated input then show input errors else errors.

Let refers (k : nat) (input : Input) : Prop :=
  input_validated input = true ∧ input_error_element input = Some k.

Lemma validateForm_run (form : Form) :
  validateForm password form
  = (forallb (λ input, negb (input_validated input)
                       || bool_decide (validate password (input_name input)
                                         (input_value input) = []))
       (form_inputs form),
     {| form_inputs := selected <$> form_inputs form;
        form_errors := foldl shown (form_errors form) (form_inputs form) |}).
Proof.
  unfold validateForm.
  assert (Hfold : ∀ inputs isValid ready errors,
    foldl (λ '(isValid, done, errors) input,
      if input_validated input then
        match validate password (input_name input) (input_value input) with
        | first :: _ =>
            (false,
             done ++ [{| input_name := input_name input;
                         input_value := input_value input;
                         input_validated := input_validated input;
                         input_error_class := true;
                         input_error_element := input_error_element input |}],
             match input_error_element input with
             | Some errorElement =>
                 alter (λ _, {| error_text := first; error_shown := true |})
                   errorElement errors
             | None => errors
             end)
        | [] =>
            (isValid,
             done ++ [{| input_name := input_name input;
                         input_value := input_value input;
                         input_validated := input_validated input;
                         input_error_class := false;
                         input_error_element := input_error_element input |}],
             match input_error_element input with
             | Some errorElement =>
                 alter (λ e, {| error_text := error_text e; error_shown := false |})
                   errorElement errors
             | None => errors
             end)
        end
      else (isValid, done ++ [input], errors))
      (isValid, ready, errors) inputs
    = (isValid
       && forallb (λ input, negb (input_validated input)
                            || bool_decide (validate password (input_name input)
                                              (input_value input) = [])) inputs,
       ready ++ (selected <$> inputs),
       foldl shown errors inputs)).
  { unfold selected, shown, mark, show.
    induction inputs as [|input inputs IH]; intros isValid ready errors.
    - simpl. by rewrite andb_true_r, app_nil_r.
    - cbn [foldl forallb fmap list_fmap].
      destruct (input_validated input) eqn:Hvalidated; cbn [negb orb].
      + destruct (validate password (input_name input) (input_value input))
          as [|first more] eqn:Hvalidate; rewrite IH, <- (assoc_L (++)); cbn [app].
        * rewrite bool_decide_eq_true_2 by done.
          rewrite bool_decide_eq_false_2 by (intros Hne; by apply Hne).
          by destruct (input_error_element input).
        * rewrite bool_decide_eq_false_2, bool_decide_eq_true_2 by done.
          rewrite andb_false_r. by destruct (input_error_element input).
      + by rewrite IH, <- (assoc_L (++)). }
  unfold selected, shown, mark, show in *. by rewrite Hfold.
Qed.

Lemma on_blur_run (before rest : list Input) (input : Input)
    (errors : gmap nat ErrorElement) :
  on_blur password (length before)
    {| form_inputs := before ++ input :: rest; form_errors := errors |}
  = {| form_inputs := (before ++ [mark input]) ++ rest; form_errors := show input errors |}.
Proof.
  unfold on_blur. cbn [form_inputs form_errors].
  rewrite list_lookup_middle by done. unfold mark, show.
  rewrite <- (assoc_L (++)). cbn [app].
  destruct (validate password (input_name input) (input_value input)) as [|first more];
    rewrite insert_app_r_alt, Nat.sub_diag by reflexivity; cbn [insert list_insert];
    by destruct (input_error_element input).
Qed.

Lemma blur_each (rest before : list Input) (errors : gmap nat ErrorElement) :
  foldl (λ form i, on_blur password i form)
    {| form_inputs := before ++ rest; form_errors := errors |}
    (validated_positions rest (length before))
  = {| form_inputs := before ++ (selected <$> rest);
       form_errors := foldl shown errors rest |}.
Proof.
  unfold selected, shown. revert before errors.
  induction rest as [|input rest IH]; intros before errors; [done|].
  cbn [validated_positions fmap list_fmap foldl].
  destruct (input_validated input).
  - cbn [foldl]. rewrite on_blur_run.
    replace (S (length before)) with (length (before ++ [mark input]))
      by (rewrite length_app; simpl; lia).
    rewrite IH. by rewrite <- (assoc_L (++)).
  - replace (S (length before)) with (length (before ++ [input]))
      by (rewrite length_app; simpl; lia).
    replace (before ++ input :: rest) with ((before ++ [input]) ++ rest)
      by (by rewrite <- (assoc_L (++))).
    rewrite IH. by rewrite <- (assoc_L (++)).
Qed.

Lemma shown_is_Some (inputs : list Input) (errors : gmap nat ErrorElement) (k : nat) :
  is_Some (foldl shown errors inputs !! k) ↔ is_Some (errors !! k).
Proof.
  revert errors. induction inputs as [|input inputs IH]; intros errors; [done|].
  cbn [foldl]. rewrite IH. unfold shown, show.
  destruct (input_validated input); [|done].
  destruct (input_error_element input) as [j|]; [|done].
  destruct (validate password (input_name input) (input_value input));
    by rewrite lookup_alter_is_Some.
Qed.

Lemma shown_elsewhere (inputs : list Input) (errors : gmap nat ErrorElement) (k : nat) :
  Forall (λ input, ¬ refers k input) inputs →
  foldl shown errors inputs !! k = errors !! k.
Proof.
  intros Hnone. revert errors.
  induction Hnone as [|input inputs Hinput _ IH]; intros errors; [done|].
  cbn [foldl]. rewrite IH. unfold shown, show, refers in *.
  destruct (input_validated input); [|done].
  destruct (input_error_element input) as [j|]; [|done].
  assert (j ≠ k) by (intros ->; by apply Hinput).
  destruct (validate password (input_name input) (input_value input));
    by rewrite lookup_alter_ne.
Qed.

(** [validateForm] answers true exactly when [validate] has no error
    for any input that carries [required] or [data-validate]. It keeps
    the name, the value and the error element of every input, leaves
    the inputs it does not validate as they are, and puts the class
    [error] on exactly the validated inputs that have an error. It adds
    and removes no error element; an element that no validated input
    finds is left alone, and any other is left as the last validated
    input that finds it leaves it: shown with the first error of that
    input, or hidden when that input has no error, whatever the inputs
    before it had. *)
Theorem validateForm_answer (form : Form) :
  let '(isValid, form') := validateForm password form in
  let errors_of input := validate password (input_name input) (input_value input) in
  (isValid = true
   ↔ Forall (λ input, input_validated input = true → errors_of input = [])
       (form_inputs form))
  ∧ Forall2 (λ input after,
      input_name after = input_name input ∧ input_value after = input_value input
      ∧ input_validated after = input_validated input
      ∧ input_error_element after = input_error_element input
      ∧ (input_validated input = false → after = input)
      ∧ (input_validated input = true →
         (input_error_class after = true ↔ errors_of input ≠ [])))
      (form_inputs form) (form_inputs form')
  ∧ ∀ k,
      (form_errors form !! k = None → form_errors form' !! k = None)
      ∧ (Forall (λ input, ¬ (input_validated input = true
                             ∧ input_error_element input = Some k))
           (form_inputs form) →
         form_errors form' !! k = form_errors form !! k)
      ∧ ∀ e before input after,
          form_errors form !! k = Some e →
          form_inputs form = before ++ input :: after →
          input_validated input = true →
          input_error_element input = Some k →
          Forall (λ later, ¬ (input_validated later = true
                              ∧ input_error_element later = Some k)) after →
          ∃ e', form_errors form' !! k = Some e'
            ∧ error_shown e' = bool_decide (errors_of input ≠ [])
            ∧ ∀ first more, errors_of input = first :: more → error_text e' = first.
Proof.
  rewrite validateForm_run. cbn [form_inputs form_errors]. split_and!.
  - rewrite forallb_forall, Forall_forall. split.
    + intros Hall input Hin%list_elem_of_In Hvalidated. specialize (Hall input Hin).
      rewrite Hvalidated in Hall. simpl in Hall. by apply bool_decide_eq_true in Hall.
    + intros Hall input Hin%list_elem_of_In. specialize (Hall input Hin).
      destruct (input_validated input); [|done]. simpl.
      apply bool_decide_eq_true. auto.
  - apply Forall2_fmap_r, Forall_Forall2_diag, Forall_forall. intros input _.
    unfold compose, selected, mark. cbv beta.
    destruct (input_validated input) eqn:Hvalidated; simpl; split_and!; try done.
    intros _. by rewrite bool_decide_eq_true.
  - intros k. split_and!.
    + intros Hnone. apply eq_None_not_Some. rewrite shown_is_Some.
      by rewrite Hnone; intros [].
    + apply shown_elsewhere.
    + intros e before input after He -> Hvalidated Helement Hafter.
      rewrite foldl_app. cbn [foldl].
      rewrite (shown_elsewhere after) by done.
      assert (is_Some (foldl shown (form_errors form) before !! k)) as [e0 He0].
      { apply shown_is_Some. by rewrite He. }
      unfold shown at 1. rewrite Hvalidated. unfold show. rewrite Helement.
      destruct (validate password (input_name input) (input_value input))
        as [|first more]; rewrite lookup_alter_eq, He0; simpl; eexists;
        split_and!; try done.
      by intros first' more' [= <- <-].
Qed.

(** [validateForm] leaves the form as the [blur] listener leaves it
    when it is run for each input that carries [required] or
    [data-validate], the first one first: the same classes on the
    inputs, and the same text and display of the error elements, with
    the same later input overwriting what an earlier one wrote into an
    element they share. *)
Theorem validateForm_agrees_with_blur (form : Form) :
  snd (validateForm password form)
  = foldl (λ form i, on_blur password i form) form
      (validated_positions (form_inputs form) 0).
Proof.
  rewrite validateForm_run. cbn [snd]. destruct form as [inputs errors].
  cbn [form_inputs form_errors].
  symmetry. apply (blur_each inputs [] errors).
Qed.

End validation.

Lemma submit_returns (valid : bool) (form : submission) (st : State) :
  fst (submit valid form st) = Ret tt.
Proof.
  destruct valid; [|done].
  by destruct form as [[r|m]|[r|m]|[r|m]|[r|m]|[r|m]|].
Qed.

(** The listener never throws, and the form ends as [validateForm]
    leaves it. When the form is valid the button ends enabled with the
    content it had, whether the request succeeded or failed; when it is
    not, the button is not touched, no request is made and the only
    effect is the notification that asks to fix the errors. *)
Theorem submit_listener_restores_button (password : option string) (form : submission)
    (page : FormPage) (st : State) :
  ∃ page',
    fst (submit_listener password form page st) = Ret page'
    ∧ page_form page' = snd (validateForm password (page_form page))
    ∧ (if fst (validateForm password (page_form page)) then
         submit_button page'
         = {| disabled := false; innerHTML := innerHTML (submit_button page) |}
         ∧ exec (submit_listener password form page) st = exec (submit true form) st
       else
         submit_button page' = submit_button page
         ∧ exec (submit_listener password form page) st
           = emit (Notify "Please fix the errors in the form" "error") st).
Proof.
  unfold submit_listener.
  destruct (validateForm password (page_form page)) as [[] validated]; cbn [fst snd].
  - pose proof (submit_returns true form st) as Hret.
    unfold exec, mbind, M_bind.
    destruct (submit true form st) as [[[]|e] st']; [|done].
    eexists. by split_and!.
  - unfold exec, mbind, M_bind. simpl. eexists. by split_and!.
Qed.

(** * The request headers *)

(** Without headers of its own a request declares JSON content; headers
    the caller passes replace the defaults, so the content type is then
    only what the caller gave. Either way the request carries
    [Authorization: Bearer token] exactly when the store holds a
    non-empty token. *)
Theorem request_headers (storage : gmap string text) (options : RequestOptions) :
  let config := request_config storage options in
  config_headers config !! "Content-Type"
  = match opt_headers options with
    | Some given => given !! "Content-Type"
    | None => Some (Literal "application/json")
    end
  ∧ config_headers config !! "Authorization"
    = match storage !! "authToken" with
      | Some token =>
          if text_truthy token then Some (Bearer token)
          else opt_headers options ≫= (.!! "Authorization")
      | None => opt_headers options ≫= (.!! "Authorization")
      end.
Proof.
  unfold request_config. simpl.
  destruct (storage !! "authToken") as [token|]; [destruct (text_truthy token)|];
    destruct (opt_headers options) as [given|]; simpl;
    rewrite ?lookup_insert_eq, ?lookup_insert_ne by done; by split.
Qed.

(** After a login that succeeds with a non-empty token, every request
    built from the store carries that token, also after a new page load;
    a login that fails leaves the headers of later requests as they
    were. *)
Theorem requests_carry_login_token (r : LoginResult) (message : string) (st : State)
    (options : RequestOptions) (page : Dom) :
  text_truthy (token r) = true →
  let st1 := exec (submit true (Login (Ok r))) st in
  config_headers (request_config (localStorage st1) options) !! "Authorization"
  = Some (Bearer (token r))
  ∧ (reachable st →
     ∃ st2, page_load (localStorage st1) page = Started st2
       ∧ config_headers (request_config (localStorage st2) options) !! "Authorization"
         = Some (Bearer (token r)))
  ∧ request_config (localStorage (exec (submit true (Login (Failed message))) st)) options
    = request_config (localStorage st) options.
Proof.
  intros Htoken st1. subst st1.
  assert (Hstored : localStorage (exec (submit true (Login (Ok r))) st) !! "authToken"
                    = Some (token r)).
  { unfold exec. simpl. by rewrite lookup_insert_eq. }
  assert (Hheader : ∀ storage,
    storage !! "authToken" = Some (token r) →
    config_headers (request_config storage options) !! "Authorization"
    = Some (Bearer (token r))).
  { intros storage Hs. unfold request_config. simpl.
    by rewrite Hs, Htoken, lookup_insert_eq. }
  split_and!; [by apply Hheader| |done].
  intros Hst.
  destruct (reachable_page_load_starts (exec (submit true (Login (Ok r))) st) page)
    as [st2 Hload]; [eapply reachable_step; [done|apply step_submit]|].
  exists st2. split; [done|]. revert Hload. unfold page_load.
  destruct (AppState_init _ page) as [st0| |] eqn:Hinit; try discriminate.
  intros [= <-]. apply Hheader. unfold exec at 1. refresh_frame o d. simpl.
  revert Hinit. unfold AppState_init. destruct (hydrate _) as [[]|]; try discriminate.
  by intros [= <-].
Qed.

Lemma requests_carry_login_token_witness :
  config_headers
    (request_config
       (localStorage
          (exec (submit true (Login (Ok {| token := NotJson "t0k3n"; login_user := JNull |})))
             first_visit))
       {| opt_method := Some "PUT"; opt_body := None; opt_headers := None |})
    !! "Authorization"
  = Some (Bearer (NotJson "t0k3n")).
Proof.
  refine (proj1 (requests_carry_login_token
                   {| token := NotJson "t0k3n"; login_user := JNull |} "" first_visit
                   {| opt_method := Some "PUT"; opt_body := None; opt_headers := None |}
                   cart_page _)).
  reflexivity.
Defined.

(** * Reading the quantity field *)


















(** * More on adding, removing and checking out *)

(** [removeFromCart] after [addToCart] of the same id leaves the cart
    without any line of that id: the old cart when it had no such line
    (the addition is undone), and otherwise the old cart less the line
    that was there before the addition. *)
Theorem add_then_remove (st : State) (product : Product) :
  let st' := exec (removeFromCart (pid product)) (exec (addToCart product) st) in
  cart st' = filter (λ item, id item ≠ pid product) (cart st)
  ∧ (find_line (pid product) (cart st) = None → cart st' = cart st)
  ∧ (is_Some (find_line (pid product) (cart st)) →
     (length (cart st') < length (cart st))%nat).
Proof.
  intros st'. subst st'. rewrite cart_removeFromCart, cart_addToCart.
  assert (Hfilter : match find_line (pid product) (cart st) with
                    | Some (i, existingItem) =>
                        filter (λ item, id item ≠ pid product)
                          (<[i := set_quantity existingItem
                                   (val (num_add (ToNumber (quantity existingItem)) (Int 1)))]>
                             (cart st))
                    | None => filter (λ item, id item ≠ pid product)
                                (cart st ++ [new_line product])
                    end = filter (λ item, id item ≠ pid product) (cart st)).
  { destruct (find_line _ _) as [[i item]|] eqn:Hfind.
    - apply list_find_Some in Hfind as (Hi & Hid & _).
      rewrite <- (take_drop_middle _ _ _ Hi) at 2.
      rewrite insert_take_drop by (by eapply lookup_lt_Some).
      rewrite !filter_app, !filter_cons_False; [done|by intros []..].
    - rewrite filter_app, filter_cons_False, filter_nil, app_nil_r; [done|].
      by intros []. }
  destruct (find_line _ _) as [[i item]|] eqn:Hfind; rewrite Hfilter.
  - split_and!; [done..|]. intros _.
    apply list_find_Some in Hfind as (Hi & Hid & _).
    rewrite <- (take_drop_middle _ _ _ Hi) at 2.
    rewrite <- (take_drop_middle _ _ _ Hi) at 1.
    rewrite !filter_app, filter_cons_False by (by intros []).
    rewrite !length_app. simpl.
    pose proof (length_filter (λ item, id item ≠ pid product) (take i (cart st))).
    pose proof (length_filter (λ item, id item ≠ pid product) (drop (S i) (cart st))).
    lia.
  - split_and!; [done| |by intros []]. intros _.
    apply filter_all. by apply list_find_None in Hfind.
Qed.

(** Checking out an empty cart is not refused: the order request goes out
    with no items and a total of 0, and when it succeeds the confirmation
    is stored and the redirect to the confirmation page is scheduled as
    for any order. *)
Theorem empty_cart_is_ordered_too (st : State) (orderResult : json) :
  cart st = [] →
  effects (exec (submit true (Checkout (Ok orderResult))) st)
  = effects st
    ++ [Request "/orders" (Some ([], 0%float));
        SetItem "lastOrder" (JSON_stringify orderResult);
        SetItem "cart" (Json (JLines []));
        Redirect "order_successful.html";
        Notify "Form submitted successfully!" "success"].
Proof.
  intros Hempty. unfold exec. simpl. rewrite Hempty. simpl.
  by rewrite <- !(assoc_L (++)).
Qed.

Lemma empty_cart_is_ordered_too_witness :
  effects (exec (submit true (Checkout (Ok (JOpaque "order 17")))) first_visit)
  = effects first_visit
    ++ [Request "/orders" (Some ([], 0%float));
        SetItem "lastOrder" (JSON_stringify (JOpaque "order 17"));
        SetItem "cart" (Json (JLines []));
        Redirect "order_successful.html";
        Notify "Form submitted successfully!" "success"].
Proof. exact (empty_cart_is_ordered_too first_visit (JOpaque "order 17") eq_refl). Defined.
